(** * ZkMetadataCache: the broker-side metadata cache of
      core/src/main/scala/kafka/server/MetadataCache.scala

    The cache holds one immutable [MetadataSnapshot]; [updateMetadata]
    builds the next snapshot from the previous one and an
    UpdateMetadataRequest, and every query reads a single snapshot.

    Conventions of the embedding:
    - Scala [Int] and [Long] values are integers of [Z].  The code does no
      arithmetic on them; an [Int] used as a [LongMap] key is widened (the
      identity on [Z]) and a key read back with [.toInt] is truncated
      ([Long_toInt]).
    - [mutable.AnyRefMap], [mutable.LongMap], [Map] and [java.util.HashMap]
      are finite maps ([gmap]); an update in place becomes a new map.
    - The class field [metadataSnapshot] is passed explicitly: a query takes
      the snapshot it captured, [updateMetadata] returns the snapshot it
      publishes next to its result.
    - Logging ([debug], [error], [stateChangeLogger]) has no effect on the
      snapshot or on any result and is left out; the write lock is the
      caller's serialisation and has no counterpart here. *)

From Stdlib Require Import ZArith Lia.
From stdpp Require Import base option numbers list strings gmap fin_maps.

(** ** What the cache takes from Kafka's client library

    [Errors], [Uuid], [Node.noNode], [SecurityProtocol], [Topic.isInternal],
    [LeaderAndIsr.LeaderDuringDelete] and [MetadataResponse.NO_LEADER_ID] are
    declared outside the file; the cache only names them.  They are the
    fields of a class, and everything below holds for every instance. *)

Inductive Errors : Type :=
  | NONE
  | LEADER_NOT_AVAILABLE
  | REPLICA_NOT_AVAILABLE
  | LISTENER_NOT_FOUND.

(** [new Node(id, host, port)]. *)
Record Node : Type := mkNode {
  node_id : Z;
  node_host : string;
  node_port : Z
}.

Class KafkaCommon : Type := {
  Uuid : Type;
  Uuid_eq_dec :: EqDecision Uuid;
  ZERO_UUID : Uuid;
  SecurityProtocol : Type;
  SecurityProtocol_forId : Z -> SecurityProtocol;
  LeaderDuringDelete : Z;
  NO_LEADER_ID : Z;
  Node_noNode : Node;
  Topic_isInternal : string -> bool;
  Errors_code : Errors -> Z;
  Errors_code_inj : forall e1 e2, Errors_code e1 = Errors_code e2 -> e1 = e2
}.

(** [Long.toInt]: the low 32 bits, read as a signed number. *)
Definition Long_toInt (l : Z) : Z :=
  ((l + 2 ^ 31) mod 2 ^ 32 - 2 ^ 31)%Z.

(** The values of an [Int]. *)
Definition Int_range (i : Z) : Prop :=
  (- 2 ^ 31 <= i < 2 ^ 31)%Z.

(** [new TopicPartition(topic, partition)]. *)
Abbreviation TopicPartition := (string * Z)%type (only parsing).

(** [map.toMap] and [dst ++= pairs]: the pairs are put one after the other,
    a later pair replaces an earlier one with the same key. *)
Definition putAll `{Countable K} {V : Type}
    (dst : gmap K V) (pairs : list (K * V)) : gmap K V :=
  foldl (fun m kv => <[kv.1 := kv.2]> m) dst pairs.

Definition toMap `{Countable K} {V : Type} (pairs : list (K * V)) : gmap K V :=
  putAll ∅ pairs.

Section MetadataCache.
Context `{KC : KafkaCommon}.

(** ** Data of the request and of the snapshot *)

(** [UpdateMetadataRequestData.UpdateMetadataEndpoint]. *)
Record UpdateMetadataEndpoint : Type := mkUpdateMetadataEndpoint {
  ume_port : Z;
  ume_host : string;
  ume_listener : string;
  ume_securityProtocol : Z
}.

(** [UpdateMetadataRequestData.UpdateMetadataBroker]; [umb_rack] is [None]
    for a null rack. *)
Record UpdateMetadataBroker : Type := mkUpdateMetadataBroker {
  umb_id : Z;
  umb_endpoints : list UpdateMetadataEndpoint;
  umb_rack : option string
}.

(** [UpdateMetadataRequestData.UpdateMetadataTopicState]. *)
Record UpdateMetadataTopicState : Type := mkUpdateMetadataTopicState {
  umt_topicName : string;
  umt_topicId : Uuid
}.

(** [UpdateMetadataRequestData.UpdateMetadataPartitionState], with the
    fields the cache reads. *)
Record UpdateMetadataPartitionState : Type := mkUpdateMetadataPartitionState {
  topicName : string;
  partitionIndex : Z;
  leader : Z;
  leaderEpoch : Z;
  isr : list Z;
  replicas : list Z;
  offlineReplicas : list Z
}.

(** [UpdateMetadataRequest]. *)
Record UpdateMetadataRequest : Type := mkUpdateMetadataRequest {
  req_controllerId : Z;
  req_controllerEpoch : Z;
  liveBrokers : list UpdateMetadataBroker;
  topicStates : list UpdateMetadataTopicState;
  req_partitionStates : list UpdateMetadataPartitionState
}.

(** [kafka.cluster.EndPoint]; a listener name is its string. *)
Record EndPoint : Type := mkEndPoint {
  ep_host : string;
  ep_port : Z;
  ep_listenerName : string;
  ep_securityProtocol : SecurityProtocol
}.

(** [kafka.cluster.Broker]. *)
Record Broker : Type := mkBroker {
  broker_id : Z;
  broker_endPoints : list EndPoint;
  broker_rack : option string
}.

(** [case class MetadataSnapshot]. *)
Record MetadataSnapshot : Type := mkMetadataSnapshot {
  partitionStates : gmap string (gmap Z UpdateMetadataPartitionState);
  topicIds : gmap string Uuid;
  controllerId : option Z;
  aliveBrokers : gmap Z Broker;
  aliveNodes : gmap Z (gmap string Node)
}.

(** The snapshot a new [ZkMetadataCache] starts with. *)
Definition emptySnapshot : MetadataSnapshot :=
  mkMetadataSnapshot ∅ ∅ None ∅ ∅.

(** [MetadataResponseData.MetadataResponsePartition]. *)
Record MetadataResponsePartition : Type := mkMetadataResponsePartition {
  mrp_errorCode : Z;
  mrp_partitionIndex : Z;
  mrp_leaderId : Z;
  mrp_leaderEpoch : Z;
  mrp_replicaNodes : list Z;
  mrp_isrNodes : list Z;
  mrp_offlineReplicas : list Z
}.

(** [MetadataResponseData.MetadataResponseTopic]. *)
Record MetadataResponseTopic : Type := mkMetadataResponseTopic {
  mrt_errorCode : Z;
  mrt_name : string;
  mrt_topicId : Uuid;
  mrt_isInternal : bool;
  mrt_partitions : list MetadataResponsePartition
}.

(** [org.apache.kafka.common.PartitionInfo]. *)
Record PartitionInfo : Type := mkPartitionInfo {
  pi_topic : string;
  pi_partition : Z;
  pi_leader : Node;
  pi_replicas : list Node;
  pi_inSyncReplicas : list Node;
  pi_offlineReplicas : list Node
}.

(** [org.apache.kafka.common.Cluster], by the arguments of its constructor;
    [cluster_controller] is [None] for a null controller. *)
Record Cluster : Type := mkCluster {
  cluster_clusterId : string;
  cluster_nodes : list Node;
  cluster_partitions : list PartitionInfo;
  cluster_unauthorizedTopics : gset string;
  cluster_internalTopics : gset string;
  cluster_controller : option Node
}.

(** ** Queries *)

Definition hasAliveEndpoint (snapshot : MetadataSnapshot)
    (brokerId : Z) (listenerName : string) : bool :=
  match aliveNodes snapshot !! brokerId with
  | Some nodes => bool_decide (is_Some (nodes !! listenerName))
  | None => false
  end.

Definition getAliveEndpoint (snapshot : MetadataSnapshot)
    (brokerId : Z) (listenerName : string) : option Node :=
  aliveNodes snapshot !! brokerId ≫= (fun nodes => nodes !! listenerName).

Definition maybeFilterAliveReplicas (snapshot : MetadataSnapshot)
    (brokers : list Z) (listenerName : string)
    (filterUnavailableEndpoints : bool) : list Z :=
  if negb filterUnavailableEndpoints then brokers
  else filter (fun brokerId => hasAliveEndpoint snapshot brokerId listenerName)
         brokers.

(** The body of the inner [partitions.map] of [getPartitionMetadata]. *)
Definition partitionMetadata (snapshot : MetadataSnapshot)
    (listenerName : string)
    (errorUnavailableEndpoints errorUnavailableListeners : bool)
    (partitionId : Z) (partitionState : UpdateMetadataPartitionState)
    : MetadataResponsePartition :=
  let leaderBrokerId := leader partitionState in
  let maybeLeader := getAliveEndpoint snapshot leaderBrokerId listenerName in
  let filteredReplicas :=
    maybeFilterAliveReplicas snapshot (replicas partitionState) listenerName
      errorUnavailableEndpoints in
  let filteredIsr :=
    maybeFilterAliveReplicas snapshot (isr partitionState) listenerName
      errorUnavailableEndpoints in
  match maybeLeader with
  | None =>
      let error :=
        if negb (bool_decide (is_Some (aliveBrokers snapshot !! leaderBrokerId)))
        then LEADER_NOT_AVAILABLE
        else if errorUnavailableListeners then LISTENER_NOT_FOUND
             else LEADER_NOT_AVAILABLE in
      mkMetadataResponsePartition (Errors_code error) (Long_toInt partitionId)
        NO_LEADER_ID (leaderEpoch partitionState)
        filteredReplicas filteredIsr (offlineReplicas partitionState)
  | Some _ =>
      let error :=
        if (length filteredReplicas <? length (replicas partitionState))%nat
        then REPLICA_NOT_AVAILABLE
        else if (length filteredIsr <? length (isr partitionState))%nat
             then REPLICA_NOT_AVAILABLE
             else NONE in
      mkMetadataResponsePartition (Errors_code error) (Long_toInt partitionId)
        (default NO_LEADER_ID (node_id <$> maybeLeader))
        (leaderEpoch partitionState)
        filteredReplicas filteredIsr (offlineReplicas partitionState)
  end.

Definition getPartitionMetadata (snapshot : MetadataSnapshot) (topic : string)
    (listenerName : string)
    (errorUnavailableEndpoints errorUnavailableListeners : bool)
    : option (list MetadataResponsePartition) :=
  (fun partitions : gmap Z UpdateMetadataPartitionState =>
     (fun '(partitionId, partitionState) =>
        partitionMetadata snapshot listenerName errorUnavailableEndpoints
          errorUnavailableListeners partitionId partitionState)
     <$> map_to_list partitions)
  <$> partitionStates snapshot !! topic.

Definition getTopicMetadata (metadataSnapshot : MetadataSnapshot)
    (topics : gset string) (listenerName : string)
    (errorUnavailableEndpoints errorUnavailableListeners : bool)
    : list MetadataResponseTopic :=
  let snapshot := metadataSnapshot in
  elements topics ≫= (fun topic =>
    option_list
      ((fun partitionMetadata =>
          mkMetadataResponseTopic (Errors_code NONE) topic
            (default ZERO_UUID (topicIds snapshot !! topic))
            (Topic_isInternal topic) partitionMetadata)
       <$> getPartitionMetadata snapshot topic listenerName
             errorUnavailableEndpoints errorUnavailableListeners)).

(** [getAllTopics(snapshot)]; the public [getAllTopics()] is this function
    at the current snapshot. *)
Definition getAllTopics (snapshot : MetadataSnapshot) : gset string :=
  dom (partitionStates snapshot).

(** The public [getAllPartitions()]. *)
Definition getAllPartitions (metadataSnapshot : MetadataSnapshot)
    : gset TopicPartition :=
  list_to_set
    (map_to_list (partitionStates metadataSnapshot) ≫=
       (fun '(topicName, partitionsAndStates) =>
          (fun partitionId => (topicName, Long_toInt partitionId))
          <$> (map_to_list partitionsAndStates).*1)).

(** The private [getAllPartitions(snapshot)]. *)
Definition getAllPartitions_snapshot (snapshot : MetadataSnapshot)
    : gmap TopicPartition UpdateMetadataPartitionState :=
  toMap
    (map_to_list (partitionStates snapshot) ≫=
       (fun '(topic, partitionStates) =>
          (fun '(partition, state) => ((topic, Long_toInt partition), state))
          <$> map_to_list partitionStates)).

Definition getNonExistingTopics (metadataSnapshot : MetadataSnapshot)
    (topics : gset string) : gset string :=
  topics ∖ dom (partitionStates metadataSnapshot).

Section MetadataBroker.
(** [kafka.server.metadata.MetadataBroker] and its [apply(broker)]. *)
Context {MetadataBroker : Type} (MetadataBroker_apply : Broker -> MetadataBroker).

Definition getAliveBroker (metadataSnapshot : MetadataSnapshot) (brokerId : Z)
    : option MetadataBroker :=
  MetadataBroker_apply <$> aliveBrokers metadataSnapshot !! brokerId.

Definition getAliveBrokers (metadataSnapshot : MetadataSnapshot)
    : list MetadataBroker :=
  MetadataBroker_apply <$> (map_to_list (aliveBrokers metadataSnapshot)).*2.

End MetadataBroker.

Definition getPartitionInfo (metadataSnapshot : MetadataSnapshot)
    (topic : string) (partitionId : Z) : option UpdateMetadataPartitionState :=
  partitionStates metadataSnapshot !! topic ≫= (fun infos => infos !! partitionId).

Definition numPartitions (metadataSnapshot : MetadataSnapshot) (topic : string)
    : option nat :=
  size <$> partitionStates metadataSnapshot !! topic.

Definition getPartitionLeaderEndpoint (metadataSnapshot : MetadataSnapshot)
    (topic : string) (partitionId : Z) (listenerName : string) : option Node :=
  let snapshot := metadataSnapshot in
  (fun partitionInfo =>
     let leaderId := leader partitionInfo in
     match aliveNodes snapshot !! leaderId with
     | Some nodeMap => default Node_noNode (nodeMap !! listenerName)
     | None => Node_noNode
     end)
  <$> (partitionStates snapshot !! topic ≫= (fun infos => infos !! partitionId)).

Definition getControllerId (metadataSnapshot : MetadataSnapshot) : option Z :=
  controllerId metadataSnapshot.

Definition contains (metadataSnapshot : MetadataSnapshot) (topic : string) : bool :=
  bool_decide (is_Some (partitionStates metadataSnapshot !! topic)).

Definition contains_tp (metadataSnapshot : MetadataSnapshot) (tp : TopicPartition)
    : bool :=
  bool_decide (is_Some (getPartitionInfo metadataSnapshot tp.1 tp.2)).

(** The partition ids of the partition states are values of [Int]: they
    are put under the [Int] [partitionIndex] of a request. *)
Definition partitionIds_Int
    (partitionStates : gmap string (gmap Z UpdateMetadataPartitionState)) : Prop :=
  forall topic infos partitionId,
    partitionStates !! topic = Some infos ->
    is_Some (infos !! partitionId) -> Int_range partitionId.

(** [getClusterMetadata]: [nodes] and the local [node(id)] first. *)
Definition clusterNodes (snapshot : MetadataSnapshot) (listenerName : string)
    : gmap Z Node :=
  omap (fun nodesByListener : gmap string Node => nodesByListener !! listenerName)
    (aliveNodes snapshot).

Definition clusterNode (nodes : gmap Z Node) (id : Z) : Node :=
  default (mkNode id "" (-1)) (nodes !! id).

Definition getClusterMetadata (metadataSnapshot : MetadataSnapshot)
    (clusterId : string) (listenerName : string) : Cluster :=
  let snapshot := metadataSnapshot in
  let nodes := clusterNodes snapshot listenerName in
  let node := clusterNode nodes in
  let partitions :=
    (fun '(tp, state) =>
       mkPartitionInfo tp.1 tp.2 (node (leader state))
         (node <$> replicas state)
         (node <$> isr state)
         (node <$> offlineReplicas state))
    <$> map_to_list
          (filter (fun '(_, state) => leader state <> LeaderDuringDelete)
             (getAllPartitions_snapshot snapshot)) in
  let unauthorizedTopics : gset string := ∅ in
  let internalTopics :=
    filter (fun topic => Topic_isInternal topic = true) (getAllTopics snapshot) in
  mkCluster clusterId (map_to_list nodes).*2 partitions
    unauthorizedTopics internalTopics
    (node <$> controllerId snapshot).

(** ** The update *)

Definition addOrUpdatePartitionInfo
    (partitionStates : gmap string (gmap Z UpdateMetadataPartitionState))
    (topic : string) (partitionId : Z) (stateInfo : UpdateMetadataPartitionState)
    : gmap string (gmap Z UpdateMetadataPartitionState) :=
  let infos := default ∅ (partitionStates !! topic) in
  <[topic := <[partitionId := stateInfo]> infos]> partitionStates.

(** [removePartitionInfo] changes both maps in place; here it returns them
    with its boolean. *)
Definition removePartitionInfo
    (partitionStates : gmap string (gmap Z UpdateMetadataPartitionState))
    (topicIds : gmap string Uuid) (topic : string) (partitionId : Z)
    : gmap string (gmap Z UpdateMetadataPartitionState) * gmap string Uuid * bool :=
  match partitionStates !! topic with
  | Some infos =>
      let infos := delete partitionId infos in
      if decide (infos = ∅)
      then (delete topic partitionStates, delete topic topicIds, true)
      else (<[topic := infos]> partitionStates, topicIds, true)
  | None => (partitionStates, topicIds, false)
  end.

(** The body of [liveBrokers.forEach]: the broker's listener map and end
    points, put under the broker's id in both maps. *)
Definition brokerNodes (broker : UpdateMetadataBroker) : gmap string Node :=
  foldl (fun nodes ep =>
           <[ume_listener ep := mkNode (umb_id broker) (ume_host ep) (ume_port ep)]>
             nodes)
        ∅ (umb_endpoints broker).

Definition brokerEndPoints (broker : UpdateMetadataBroker) : list EndPoint :=
  (fun ep =>
     mkEndPoint (ume_host ep) (ume_port ep) (ume_listener ep)
       (SecurityProtocol_forId (ume_securityProtocol ep)))
  <$> umb_endpoints broker.

Definition liveBroker (broker : UpdateMetadataBroker) : Broker :=
  mkBroker (umb_id broker) (brokerEndPoints broker) (umb_rack broker).

Definition addLiveBroker (acc : gmap Z Broker * gmap Z (gmap string Node))
    (broker : UpdateMetadataBroker) : gmap Z Broker * gmap Z (gmap string Node) :=
  (<[umb_id broker := liveBroker broker]> acc.1,
   <[umb_id broker := brokerNodes broker]> acc.2).

(** [newTopicIds]. *)
Definition newTopicIds (request : UpdateMetadataRequest) : gmap string Uuid :=
  toMap
    (filter (fun p : string * Uuid => p.2 <> ZERO_UUID)
       ((fun topicState => (umt_topicName topicState, umt_topicId topicState))
        <$> topicStates request)).

(** [controllerIdOpt]. *)
Definition controllerIdOpt (request : UpdateMetadataRequest) : option Z :=
  if decide (req_controllerId request < 0)%Z then None
  else Some (req_controllerId request).

(** The new [aliveBrokers] and [aliveNodes] after [liveBrokers.forEach]. *)
Definition liveBrokerMaps (request : UpdateMetadataRequest)
    : gmap Z Broker * gmap Z (gmap string Node) :=
  foldl addLiveBroker (∅, ∅) (liveBrokers request).

(** The mutable [topicIds] after the two [++=]. *)
Definition mergedTopicIds (metadataSnapshot : MetadataSnapshot)
    (request : UpdateMetadataRequest) : gmap string Uuid :=
  putAll (putAll ∅ (map_to_list (topicIds metadataSnapshot)))
    (map_to_list (newTopicIds request)).

(** The working state of [newStates.foreach]: the copy of the partition
    states, the mutable [topicIds], and [deletedPartitions]. *)
Record MergeState : Type := mkMergeState {
  ms_partitionStates : gmap string (gmap Z UpdateMetadataPartitionState);
  ms_topicIds : gmap string Uuid;
  ms_deletedPartitions : list TopicPartition
}.

(** The body of [newStates.foreach]. *)
Definition applyPartitionState (ms : MergeState)
    (state : UpdateMetadataPartitionState) : MergeState :=
  let tp : TopicPartition := (topicName state, partitionIndex state) in
  if decide (leader state = LeaderDuringDelete) then
    let '(partitionStates, topicIds, _) :=
      removePartitionInfo (ms_partitionStates ms) (ms_topicIds ms) tp.1 tp.2 in
    mkMergeState partitionStates topicIds (ms_deletedPartitions ms ++ [tp])
  else
    mkMergeState
      (addOrUpdatePartitionInfo (ms_partitionStates ms) tp.1 tp.2 state)
      (ms_topicIds ms) (ms_deletedPartitions ms).

(** The loop body on a partition state that does not carry the delete
    sentinel, on the partition states alone. *)
Definition cacheState
    (partitionStates : gmap string (gmap Z UpdateMetadataPartitionState))
    (state : UpdateMetadataPartitionState)
    : gmap string (gmap Z UpdateMetadataPartitionState) :=
  addOrUpdatePartitionInfo partitionStates (topicName state)
    (partitionIndex state) state.

(** [updateMetadata]: the deleted partitions it returns, and the snapshot it
    stores in [metadataSnapshot]. *)
Definition updateMetadata (metadataSnapshot : MetadataSnapshot)
    (correlationId : Z) (updateMetadataRequest : UpdateMetadataRequest)
    : list TopicPartition * MetadataSnapshot :=
  let controllerIdOpt := controllerIdOpt updateMetadataRequest in
  let aliveBrokers := (liveBrokerMaps updateMetadataRequest).1 in
  let aliveNodes := (liveBrokerMaps updateMetadataRequest).2 in
  let topicIds := mergedTopicIds metadataSnapshot updateMetadataRequest in
  match req_partitionStates updateMetadataRequest with
  | [] =>
      ([], mkMetadataSnapshot (partitionStates metadataSnapshot) topicIds
             controllerIdOpt aliveBrokers aliveNodes)
  | newStates =>
      (* the copy of the previous partition states, inner maps included *)
      let partitionStates := partitionStates metadataSnapshot in
      let ms := foldl applyPartitionState
                  (mkMergeState partitionStates topicIds []) newStates in
      (ms_deletedPartitions ms,
       mkMetadataSnapshot (ms_partitionStates ms) (ms_topicIds ms)
         controllerIdOpt aliveBrokers aliveNodes)
  end.

(** ** The remaining query, and the snapshots the cache can hold *)

Section ReplicaEndpoints.
(** [Broker.getNode(listenerName)] and [Node.isEmpty], declared with
    [kafka.cluster.Broker] and [org.apache.kafka.common.Node]. *)
Context (Broker_getNode : Broker -> string -> option Node)
        (Node_isEmpty : Node -> bool).

Definition getPartitionReplicaEndpoints (metadataSnapshot : MetadataSnapshot)
    (tp : TopicPartition) (listenerName : string) : gmap Z Node :=
  let snapshot := metadataSnapshot in
  default ∅
    ((fun partitionInfo =>
        let replicaIds := replicas partitionInfo in
        filter (fun pair : Z * Node => Node_isEmpty pair.2 = false)
          (toMap
             ((fun replicaId =>
                 (replicaId,
                  match aliveBrokers snapshot !! replicaId with
                  | Some broker =>
                      default Node_noNode (Broker_getNode broker listenerName)
                  | None => Node_noNode
                  end))
              <$> replicaIds)))
     <$> (partitionStates snapshot !! tp.1 ≫= (fun infos => infos !! tp.2))).

End ReplicaEndpoints.

(** No topic of the partition states is left with an empty partition map. *)
Definition noEmptyTopic
    (partitionStates : gmap string (gmap Z UpdateMetadataPartitionState)) : Prop :=
  forall topic infos, partitionStates !! topic = Some infos -> infos <> ∅.

(** The snapshots of a cache: the one it starts with, and the ones
    [updateMetadata] publishes for requests whose partition indexes are
    [Int] values. *)
Inductive reachable : MetadataSnapshot -> Prop :=
  | reachable_empty : reachable emptySnapshot
  | reachable_update (s : MetadataSnapshot) (correlationId : Z)
      (request : UpdateMetadataRequest) :
      reachable s ->
      Forall (fun st => Int_range (partitionIndex st))
        (req_partitionStates request) ->
      reachable (updateMetadata s correlationId request).2.

End MetadataCache.

(** ** An instance, and data to run the cache on

    The names of the class with the values Kafka gives them. *)
Definition kafka : KafkaCommon := {|
  Uuid := Z * Z;
  ZERO_UUID := (0, 0)%Z;
  SecurityProtocol := Z;
  SecurityProtocol_forId := fun id => id;
  LeaderDuringDelete := (-2)%Z;
  NO_LEADER_ID := (-1)%Z;
  Node_noNode := mkNode (-1) "" (-1);
  Topic_isInternal := fun topic =>
    bool_decide (topic = "__consumer_offsets" \/ topic = "__transaction_state");
  Errors_code := fun e =>
    match e with
    | NONE => 0
    | LEADER_NOT_AVAILABLE => 5
    | REPLICA_NOT_AVAILABLE => 9
    | LISTENER_NOT_FOUND => 72
    end%Z;
  Errors_code_inj := ltac:(intros [] []; (reflexivity || discriminate))
|}.

(** The scenario of the specification: a node list, then a topic with one
    partition (and no node list), then the deletion of that partition. *)
Definition U1 : @UpdateMetadataRequest kafka :=
  mkUpdateMetadataRequest 1 0
    [mkUpdateMetadataBroker 1 [mkUpdateMetadataEndpoint 9092 "host1" "plain" 0] None]
    [] [].

Definition uuid_A : @Uuid kafka := (10, 11)%Z.

Definition U2 : @UpdateMetadataRequest kafka :=
  mkUpdateMetadataRequest 1 0 []
    [mkUpdateMetadataTopicState (KC := kafka) "orders" uuid_A]
    [mkUpdateMetadataPartitionState "orders" 0 1 0 [1%Z] [1%Z] []].

Definition U3 : @UpdateMetadataRequest kafka :=
  mkUpdateMetadataRequest 1 0 [] []
    [mkUpdateMetadataPartitionState "orders" 0 (-2) 0 [] [] []].

Definition snapshot0 : @MetadataSnapshot kafka := emptySnapshot.
Definition snapshot1 : @MetadataSnapshot kafka := (updateMetadata snapshot0 1 U1).2.
Definition snapshot2 : @MetadataSnapshot kafka := (updateMetadata snapshot1 2 U2).2.

(** The topic with its partition and the node list in one request; replica
    2 is not a live broker. *)
Definition U12 : @UpdateMetadataRequest kafka :=
  mkUpdateMetadataRequest 1 0
    [mkUpdateMetadataBroker 1 [mkUpdateMetadataEndpoint 9092 "host1" "plain" 0] None]
    [mkUpdateMetadataTopicState (KC := kafka) "orders" uuid_A]
    [mkUpdateMetadataPartitionState "orders" 0 1 0 [1%Z; 2%Z] [1%Z; 2%Z] []].

Definition snapshot12 : @MetadataSnapshot kafka :=
  (updateMetadata snapshot0 1 U12).2.

(** The deletion of the only partition of "orders" followed, in the same
    request, by a new partition of "orders". *)
Definition U3_readd : @UpdateMetadataRequest kafka :=
  mkUpdateMetadataRequest 1 0 [] []
    [mkUpdateMetadataPartitionState "orders" 0 (-2) 0 [] [] [];
     mkUpdateMetadataPartitionState "orders" 1 1 0 [1%Z] [1%Z] []].

(** A request whose topic states carry the zero identifier for "orders". *)
Definition U_zero : @UpdateMetadataRequest kafka :=
  mkUpdateMetadataRequest 1 0 []
    [mkUpdateMetadataTopicState (KC := kafka) "orders" (0, 0)%Z] [].

(** A snapshot with the topic "payments" only. *)
Definition U_payments : @UpdateMetadataRequest kafka :=
  mkUpdateMetadataRequest 1 0
    [mkUpdateMetadataBroker 1 [mkUpdateMetadataEndpoint 9092 "host1" "plain" 0] None]
    []
    [mkUpdateMetadataPartitionState "payments" 0 1 0 [1%Z] [1%Z] []].

Definition snapshot_payments : @MetadataSnapshot kafka :=
  (updateMetadata snapshot0 1 U_payments).2.

(** The answer of [getTopicMetadata] for "orders" in [snapshot12] when
    unavailable end points are errors. *)
Definition orders_partition_v0 : MetadataResponsePartition :=
  mkMetadataResponsePartition 9 0 1 0 [1%Z] [1%Z] [].

Definition orders_topic_v0 : @MetadataResponseTopic kafka :=
  mkMetadataResponseTopic (KC := kafka) 0 "orders" uuid_A false
    [orders_partition_v0].

(** ** Finite-map facts used below *)

Section putAll.
Context `{Countable K} {V : Type}.
Implicit Types (m : gmap K V) (l : list (K * V)).

Lemma putAll_snoc m l kv :
  putAll m (l ++ [kv]) = <[kv.1 := kv.2]> (putAll m l).
Proof. unfold putAll. by rewrite foldl_app. Qed.

Lemma putAll_union m l : putAll m l = list_to_map (reverse l) ∪ m.
Proof.
  induction l as [|kv l IH] using rev_ind.
  - rewrite reverse_nil. simpl. by rewrite (left_id_L ∅ (∪)).
  - rewrite putAll_snoc, IH, reverse_app, reverse_singleton.
    simpl. by rewrite insert_union_l.
Qed.

Lemma putAll_map_to_list m (src : gmap K V) :
  putAll m (map_to_list src) = src ∪ m.
Proof.
  rewrite putAll_union. f_equal.
  rewrite <-(list_to_map_to_list src) at 2.
  symmetry. apply list_to_map_proper; [apply NoDup_fst_map_to_list|].
  symmetry. apply reverse_Permutation.
Qed.

(** A key is bound in [toMap l] to a value it is paired with in [l]; when
    the list pairs the key with one value only, to that one. *)
Lemma lookup_toMap_Some_1 l k v : toMap l !! k = Some v -> (k, v) ∈ l.
Proof.
  unfold toMap. rewrite putAll_union, (right_id_L ∅ (∪)).
  intros Hl. apply elem_of_list_to_map_2 in Hl. by rewrite elem_of_reverse in Hl.
Qed.

Lemma lookup_toMap_Some_2 l k v :
  (forall v', (k, v') ∈ l -> v = v') -> (k, v) ∈ l -> toMap l !! k = Some v.
Proof.
  intros Hfun Hin. unfold toMap. rewrite putAll_union, (right_id_L ∅ (∪)).
  apply elem_of_list_to_map_1'.
  - intros v' Hv'. rewrite elem_of_reverse in Hv'. by apply Hfun.
  - by rewrite elem_of_reverse.
Qed.

End putAll.

(** ** Properties of the cache *)

Section Properties.
Context `{KC : KafkaCommon}.
Implicit Types (s : MetadataSnapshot) (req : UpdateMetadataRequest).
Implicit Types (ms : MergeState) (st : UpdateMetadataPartitionState).

(** The merged topic identifiers: the request's non-zero identifiers over
    the previous ones. *)
Lemma mergedTopicIds_union s req :
  mergedTopicIds s req = newTopicIds req ∪ topicIds s.
Proof.
  unfold mergedTopicIds.
  by rewrite !putAll_map_to_list, (right_id_L ∅ (∪)).
Qed.

(** Both branches of [updateMetadata] are the loop over the request's
    partition states, which does nothing on an empty list. *)
Lemma updateMetadata_fold s correlationId req :
  updateMetadata s correlationId req =
    let ms := foldl applyPartitionState
                (mkMergeState (partitionStates s) (mergedTopicIds s req) [])
                (req_partitionStates req) in
    (ms_deletedPartitions ms,
     mkMetadataSnapshot (ms_partitionStates ms) (ms_topicIds ms)
       (controllerIdOpt req) (liveBrokerMaps req).1 (liveBrokerMaps req).2).
Proof. unfold updateMetadata. by destruct (req_partitionStates req). Qed.

Lemma applyPartitionState_deleted ms st :
  ms_deletedPartitions (applyPartitionState ms st) =
    ms_deletedPartitions ms ++
    (if decide (leader st = LeaderDuringDelete)
     then [(topicName st, partitionIndex st)] else []).
Proof.
  unfold applyPartitionState. case_decide; simpl.
  - by destruct (removePartitionInfo _ _ _ _) as [[??]?].
  - by rewrite app_nil_r.
Qed.

Lemma foldl_applyPartitionState_deleted ms (l : list UpdateMetadataPartitionState) :
  ms_deletedPartitions (foldl applyPartitionState ms l) =
    ms_deletedPartitions ms ++
    ((fun st => (topicName st, partitionIndex st))
     <$> filter (fun st => leader st = LeaderDuringDelete) l).
Proof.
  revert ms. induction l as [|st l IH]; intros ms; simpl.
  - by rewrite app_nil_r.
  - rewrite IH, applyPartitionState_deleted, filter_cons.
    case_decide; simpl; [by rewrite <-app_assoc | by rewrite app_nil_r].
Qed.

(** C6.  The controller id of the published snapshot is absent when the
    request's controller id is negative and is the request's controller id
    otherwise, whatever the previous snapshot, its controller id and the
    request's controller epoch are. *)
Theorem C6_controller_id s correlationId req :
  let s' := (updateMetadata s correlationId req).2 in
  ((req_controllerId req < 0)%Z -> getControllerId s' = None) /\
  ((0 <= req_controllerId req)%Z ->
     getControllerId s' = Some (req_controllerId req)).
Proof.
  rewrite updateMetadata_fold. simpl.
  unfold getControllerId, controllerIdOpt. simpl.
  split; intros Hid; case_decide; (done || lia).
Qed.

(** C7, as amended.  [updateMetadata] returns, in the order of the request,
    the (topic, partition) of every partition state of the request whose
    leader is the delete sentinel, whether or not the cache held that
    partition; it returns the empty list when the request has no such
    partition state. *)
Theorem C7_deleted_partitions s correlationId req :
  (updateMetadata s correlationId req).1 =
    (fun st => (topicName st, partitionIndex st))
    <$> filter (fun st => leader st = LeaderDuringDelete) (req_partitionStates req).
Proof.
  rewrite updateMetadata_fold. simpl.
  by rewrite foldl_applyPartitionState_deleted.
Qed.

(** The alive maps built from a broker list: a broker id is bound to the
    last broker of the list with that id, and to nothing when there is
    none. *)
Lemma liveBrokerMaps_lookup req brokerId :
  let broker :=
    last (filter (fun broker => umb_id broker = brokerId) (liveBrokers req)) in
  (liveBrokerMaps req).1 !! brokerId = liveBroker <$> broker /\
  (liveBrokerMaps req).2 !! brokerId = brokerNodes <$> broker.
Proof.
  unfold liveBrokerMaps. simpl.
  induction (liveBrokers req) as [|broker brokers [IH1 IH2]] using rev_ind;
    [done|].
  rewrite foldl_app, filter_app. simpl.
  destruct (decide (umb_id broker = brokerId)) as [Heq|Hne].
  - rewrite filter_cons_True, filter_nil, last_snoc by done.
    rewrite Heq, !lookup_insert_eq. done.
  - rewrite filter_cons_False, filter_nil, app_nil_r by done.
    by rewrite !lookup_insert_ne.
Qed.

(** A broker's listener map binds a listener name to the node of the
    broker's last end point with that name. *)
Lemma brokerNodes_lookup_last (broker : UpdateMetadataBroker) listenerName :
  brokerNodes broker !! listenerName =
    (fun ep => mkNode (umb_id broker) (ume_host ep) (ume_port ep)) <$>
      last (filter (fun ep => ume_listener ep = listenerName)
              (umb_endpoints broker)).
Proof.
  unfold brokerNodes.
  induction (umb_endpoints broker) as [|ep eps IH] using rev_ind; [done|].
  rewrite foldl_app, filter_app, filter_cons, filter_nil. simpl.
  case_decide as Hl.
  - by rewrite Hl, lookup_insert_eq, last_snoc.
  - by rewrite lookup_insert_ne, app_nil_r.
Qed.

(** The new topic identifiers: a name is bound to the identifier of the
    last topic state of the request for it whose identifier is not the zero
    UUID. *)
Lemma newTopicIds_lookup req name :
  newTopicIds req !! name =
    umt_topicId <$>
      last (filter (fun ts => umt_topicName ts = name /\
                              umt_topicId ts <> ZERO_UUID) (topicStates req)).
Proof.
  unfold newTopicIds, toMap, putAll.
  induction (topicStates req) as [|ts l IH] using rev_ind; [done|].
  rewrite fmap_app, !filter_app, fmap_cons, fmap_nil, !filter_cons, !filter_nil.
  simpl. destruct (decide (umt_topicId ts <> ZERO_UUID)) as [Hz|Hz].
  - rewrite foldl_app. simpl.
    destruct (decide (umt_topicName ts = name)) as [<-|Hname].
    + rewrite lookup_insert_eq, decide_True by done. by rewrite last_snoc.
    + rewrite lookup_insert_ne by done.
      rewrite decide_False by (by intros [? _]). by rewrite IH, app_nil_r.
  - rewrite decide_False by (by intros [_ ?]). by rewrite !app_nil_r, IH.
Qed.

Lemma mergedTopicIds_lookup s req name :
  mergedTopicIds s req !! name =
  match last (filter (fun ts => umt_topicName ts = name /\
                                umt_topicId ts <> ZERO_UUID)
                (topicStates req)) with
  | Some ts => Some (umt_topicId ts)
  | None => topicIds s !! name
  end.
Proof.
  rewrite mergedTopicIds_union, lookup_union, newTopicIds_lookup.
  destruct (last _); simpl; [|by rewrite (left_id_L None _)].
  by destruct (topicIds s !! name).
Qed.

(** C5.  A request with no partition state publishes the previous partition
    states: [getAllTopics] and [getAllPartitions] are what they were.  The
    alive brokers and nodes are taken from the request's broker list: a
    broker id is alive exactly when the list has a broker with that id, the
    last such broker gives the recorded [Broker] (its id, its end points in
    order, its rack) and the recorded nodes (per listener name, the id with
    the host and port of the broker's last end point with that listener).
    The topic identifier of a name is the identifier of the last topic
    state of the request for that name with a non-zero UUID, and the
    previous identifier when the request has none. *)
Theorem C5_no_partition_states s correlationId req :
  req_partitionStates req = [] ->
  let s' := (updateMetadata s correlationId req).2 in
  let broker := fun brokerId =>
    last (filter (fun broker => umb_id broker = brokerId) (liveBrokers req)) in
  partitionStates s' = partitionStates s /\
  getAllTopics s' = getAllTopics s /\
  getAllPartitions s' = getAllPartitions s /\
  (forall brokerId,
     aliveBrokers s' !! brokerId =
       (fun b =>
          mkBroker (umb_id b)
            ((fun ep =>
                mkEndPoint (ume_host ep) (ume_port ep) (ume_listener ep)
                  (SecurityProtocol_forId (ume_securityProtocol ep)))
             <$> umb_endpoints b)
            (umb_rack b))
       <$> broker brokerId) /\
  (forall brokerId,
     is_Some (aliveNodes s' !! brokerId) <-> is_Some (broker brokerId)) /\
  (forall brokerId nodes,
     aliveNodes s' !! brokerId = Some nodes ->
     exists b, broker brokerId = Some b /\
       forall listenerName,
         nodes !! listenerName =
           (fun ep => mkNode brokerId (ume_host ep) (ume_port ep)) <$>
             last (filter (fun ep => ume_listener ep = listenerName)
                     (umb_endpoints b))) /\
  (forall name,
     topicIds s' !! name =
       match last (filter (fun ts => umt_topicName ts = name /\
                                     umt_topicId ts <> ZERO_UUID)
                     (topicStates req)) with
       | Some ts => Some (umt_topicId ts)
       | None => topicIds s !! name
       end) /\
  (updateMetadata s correlationId req).1 = [].
Proof.
  intros Hempty. rewrite updateMetadata_fold, Hempty. simpl.
  split_and!; try done.
  - intros brokerId.
    destruct (liveBrokerMaps_lookup req brokerId) as [-> _].
    by destruct (last _).
  - intros brokerId.
    destruct (liveBrokerMaps_lookup req brokerId) as [_ ->].
    apply fmap_is_Some.
  - intros brokerId nodes.
    destruct (liveBrokerMaps_lookup req brokerId) as [_ ->].
    destruct (last _) as [b|] eqn:Hlast; simpl; [|done].
    intros [= <-]. exists b. split; [done|]. intros listenerName.
    apply last_Some_elem_of, list_elem_of_filter in Hlast as [Hid _].
    by rewrite brokerNodes_lookup_last, Hid.
  - intros name. apply mergedTopicIds_lookup.
Qed.

(** C1, as amended.  A request whose broker list is empty publishes empty
    alive-broker and alive-node maps, whatever the previous snapshot held:
    afterwards [getAliveBrokers] is empty, no broker has an alive end point,
    and [getPartitionLeaderEndpoint] is the empty node for every partition
    of the snapshot. *)
Theorem C1_empty_broker_list s correlationId req
    {MetadataBroker : Type} (MetadataBroker_apply : Broker -> MetadataBroker) :
  liveBrokers req = [] ->
  let s' := (updateMetadata s correlationId req).2 in
  aliveBrokers s' = ∅ /\
  aliveNodes s' = ∅ /\
  getAliveBrokers MetadataBroker_apply s' = [] /\
  (forall brokerId listenerName,
     getAliveEndpoint s' brokerId listenerName = None) /\
  (forall topic partitionId listenerName,
     getPartitionLeaderEndpoint s' topic partitionId listenerName =
       (fun _ => Node_noNode) <$> getPartitionInfo s' topic partitionId).
Proof.
  intros Hempty. rewrite updateMetadata_fold. simpl.
  unfold liveBrokerMaps, getAliveBrokers, getAliveEndpoint,
    getPartitionLeaderEndpoint, getPartitionInfo.
  rewrite Hempty. simpl. by split_and!.
Qed.

Lemma newTopicIds_zero req (l1 l2 : list UpdateMetadataTopicState) ts :
  topicStates req = l1 ++ ts :: l2 ->
  umt_topicId ts = ZERO_UUID ->
  newTopicIds req =
    newTopicIds (mkUpdateMetadataRequest (req_controllerId req)
                   (req_controllerEpoch req) (liveBrokers req) (l1 ++ l2)
                   (req_partitionStates req)).
Proof.
  intros Hts Hzero. unfold newTopicIds. simpl. rewrite Hts.
  rewrite !fmap_app, fmap_cons, !filter_app.
  by rewrite filter_cons_False by (simpl; auto).
Qed.

(** C10.  A topic state of the request whose identifier is the zero UUID
    is ignored: the update publishes the snapshot, and returns the list, it
    would without that topic state; the topic identifier of every name, the
    one of that topic state included, is bound or unbound as without it. *)
Theorem C10_zero_uuid_ignored s correlationId req
    (l1 l2 : list UpdateMetadataTopicState) ts :
  topicStates req = l1 ++ ts :: l2 ->
  umt_topicId ts = ZERO_UUID ->
  updateMetadata s correlationId req =
    updateMetadata s correlationId
      (mkUpdateMetadataRequest (req_controllerId req) (req_controllerEpoch req)
         (liveBrokers req) (l1 ++ l2) (req_partitionStates req)).
Proof.
  intros Hts Hzero. rewrite !updateMetadata_fold. simpl.
  unfold mergedTopicIds. by rewrite (newTopicIds_zero req l1 l2 ts).
Qed.

(** C3.  [getPartitionLeaderEndpoint] is [None] exactly when the snapshot
    has no entry for (topic, partition).  For an entry with leader id [l]:
    it is the empty node when [l] is not an alive node or the alive node has
    no end point under the listener name, and it is the node recorded for
    [l] under the listener name otherwise. *)
Theorem C3_partition_leader_endpoint s topic partitionId listenerName :
  let result := getPartitionLeaderEndpoint s topic partitionId listenerName in
  (result = None <-> getPartitionInfo s topic partitionId = None) /\
  (forall st, getPartitionInfo s topic partitionId = Some st ->
     (aliveNodes s !! leader st = None -> result = Some Node_noNode) /\
     (forall nodeMap, aliveNodes s !! leader st = Some nodeMap ->
        nodeMap !! listenerName = None -> result = Some Node_noNode) /\
     (forall nodeMap node, aliveNodes s !! leader st = Some nodeMap ->
        nodeMap !! listenerName = Some node -> result = Some node)).
Proof.
  unfold getPartitionLeaderEndpoint, getPartitionInfo. simpl.
  destruct (partitionStates s !! topic ≫= _) as [st|]; simpl.
  - split; [split; discriminate|].
    intros st' [= <-]. split_and!.
    + by intros ->.
    + by intros nodeMap -> ->.
    + by intros nodeMap node -> ->.
  - split; [done|]. discriminate.
Qed.

(** The nodes [updateMetadata] records for a broker: one per end point of
    the broker in the request, with the broker's id and the end point's
    host and port. *)
Lemma brokerNodes_lookup (broker : UpdateMetadataBroker) listenerName node :
  brokerNodes broker !! listenerName = Some node ->
  exists ep, ep ∈ umb_endpoints broker /\ ume_listener ep = listenerName /\
    node = mkNode (umb_id broker) (ume_host ep) (ume_port ep).
Proof.
  unfold brokerNodes.
  induction (umb_endpoints broker) as [|ep eps IH] using rev_ind; [done|].
  rewrite foldl_app. simpl.
  destruct (decide (ume_listener ep = listenerName)) as [<-|Hne].
  - rewrite lookup_insert_eq. intros [= <-].
    exists ep. by rewrite elem_of_app, list_elem_of_singleton; auto.
  - rewrite lookup_insert_ne by done. intros (ep' & ? & ? & ?)%IH.
    exists ep'. rewrite elem_of_app. auto.
Qed.

Lemma liveBrokerMaps_nodes_lookup req brokerId nodeMap :
  (liveBrokerMaps req).2 !! brokerId = Some nodeMap ->
  exists broker, broker ∈ liveBrokers req /\ umb_id broker = brokerId /\
    nodeMap = brokerNodes broker.
Proof.
  unfold liveBrokerMaps.
  induction (liveBrokers req) as [|broker brokers IH] using rev_ind; [done|].
  rewrite foldl_app. simpl.
  destruct (decide (umb_id broker = brokerId)) as [<-|Hne].
  - rewrite lookup_insert_eq. intros [= <-].
    exists broker. by rewrite elem_of_app, list_elem_of_singleton; auto.
  - rewrite lookup_insert_ne by done. intros (broker' & ? & ? & ?)%IH.
    exists broker'. rewrite elem_of_app. auto.
Qed.

(** The partitions [getTopicMetadata] answers with come from the partition
    states of the topic. *)
Lemma elem_of_getTopicMetadata s topics listenerName
    (errorUnavailableEndpoints errorUnavailableListeners : bool) t p :
  t ∈ getTopicMetadata s topics listenerName errorUnavailableEndpoints
        errorUnavailableListeners ->
  p ∈ mrt_partitions t ->
  exists infos partitionId st,
    mrt_name t ∈ topics /\
    partitionStates s !! mrt_name t = Some infos /\
    infos !! partitionId = Some st /\
    p = partitionMetadata s listenerName errorUnavailableEndpoints
          errorUnavailableListeners partitionId st.
Proof.
  unfold getTopicMetadata, getPartitionMetadata. simpl.
  intros (topic & Ht & Htopic)%list_elem_of_bind Hp.
  apply elem_of_elements in Htopic.
  destruct (partitionStates s !! topic) as [infos|] eqn:Hinfos; simpl in Ht;
    [|by apply elem_of_nil in Ht].
  apply list_elem_of_singleton in Ht as ->. simpl in *.
  apply list_elem_of_fmap in Hp as ([partitionId st] & -> & Hin).
  apply elem_of_map_to_list in Hin.
  by exists infos, partitionId, st.
Qed.

(** C2, as amended.  For every partition [getTopicMetadata] answers with:
    when [errorUnavailableEndpoints] is false the replica and ISR lists are
    those of the partition state, unfiltered (a member that is unreachable
    under the listener stays in them), and the error is not
    REPLICA_NOT_AVAILABLE; when it is true the lists keep the members with an
    alive end point under the listener and, if the leader resolves, the error
    is REPLICA_NOT_AVAILABLE exactly when the replica list or the ISR list
    became shorter. *)
Theorem C2_replica_filtering s topics listenerName
    (errorUnavailableEndpoints errorUnavailableListeners : bool) t p :
  t ∈ getTopicMetadata s topics listenerName errorUnavailableEndpoints
        errorUnavailableListeners ->
  p ∈ mrt_partitions t ->
  exists infos partitionId st,
    partitionStates s !! mrt_name t = Some infos /\
    infos !! partitionId = Some st /\
    mrp_partitionIndex p = Long_toInt partitionId /\
    (errorUnavailableEndpoints = false ->
       mrp_replicaNodes p = replicas st /\
       mrp_isrNodes p = isr st /\
       mrp_errorCode p <> Errors_code REPLICA_NOT_AVAILABLE) /\
    (errorUnavailableEndpoints = true ->
       mrp_replicaNodes p =
         filter (fun brokerId => hasAliveEndpoint s brokerId listenerName)
           (replicas st) /\
       mrp_isrNodes p =
         filter (fun brokerId => hasAliveEndpoint s brokerId listenerName)
           (isr st) /\
       (is_Some (getAliveEndpoint s (leader st) listenerName) ->
          (mrp_errorCode p = Errors_code REPLICA_NOT_AVAILABLE <->
             length (mrp_replicaNodes p) < length (replicas st) \/
             length (mrp_isrNodes p) < length (isr st)))).
Proof.
  intros Ht Hp.
  destruct (elem_of_getTopicMetadata _ _ _ _ _ _ _ Ht Hp)
    as (infos & partitionId & st & _ & Hinfos & Hst & ->).
  exists infos, partitionId, st. split; [done|]. split; [done|].
  unfold partitionMetadata, maybeFilterAliveReplicas.
  split; [by destruct (getAliveEndpoint _ _ _)|].
  split.
  - intros ->. simpl.
    destruct (getAliveEndpoint _ _ _); simpl.
    + rewrite !Nat.ltb_irrefl. split_and!; [done..|].
      by intros ?%Errors_code_inj.
    + split_and!; [done..|]. intros Herr%Errors_code_inj. revert Herr.
      by repeat case_match.
  - intros ->. simpl.
    destruct (getAliveEndpoint _ _ _) as [leaderNode|]; simpl.
    + split_and!; [done..|]. intros _.
      destruct (length (filter _ (replicas st)) <? _) eqn:Hreplicas;
        [|destruct (length (filter _ (isr st)) <? _) eqn:Hisr].
      * apply Nat.ltb_lt in Hreplicas. split; auto.
      * apply Nat.ltb_lt in Hisr. split; auto.
      * apply Nat.ltb_ge in Hreplicas, Hisr.
        split; [by intros ?%Errors_code_inj | lia].
    + split_and!; [done..|]. by intros [? [=]].
Qed.

(** *** Deleting the last partition of a topic *)

Lemma removePartitionInfo_last
    (ps : gmap string (gmap Z UpdateMetadataPartitionState))
    (tids : gmap string Uuid) topic partitionId infos :
  ps !! topic = Some infos ->
  delete partitionId infos = ∅ ->
  removePartitionInfo ps tids topic partitionId =
    (delete topic ps, delete topic tids, true).
Proof.
  intros Hinfos Hlast. unfold removePartitionInfo. rewrite Hinfos.
  by rewrite decide_True.
Qed.

(** The loop only removes topic identifiers. *)
Lemma applyPartitionState_topicIds_None ms st topic :
  ms_topicIds ms !! topic = None ->
  ms_topicIds (applyPartitionState ms st) !! topic = None.
Proof.
  intros Hnone. unfold applyPartitionState, removePartitionInfo.
  case_decide; [|done].
  destruct (ms_partitionStates ms !! _); [|done].
  case_decide; [|done]. simpl.
  rewrite lookup_delete. by case_decide.
Qed.

Lemma foldl_applyPartitionState_topicIds_None ms
    (l : list UpdateMetadataPartitionState) topic :
  ms_topicIds ms !! topic = None ->
  ms_topicIds (foldl applyPartitionState ms l) !! topic = None.
Proof.
  revert ms. induction l as [|st l IH]; intros ms Hnone; [done|].
  simpl. by apply IH, applyPartitionState_topicIds_None.
Qed.

(** A topic without partition states stays without them as long as no
    partition state of that topic is cached. *)
Lemma applyPartitionState_partitionStates_None ms st topic :
  (topicName st = topic -> leader st = LeaderDuringDelete) ->
  ms_partitionStates ms !! topic = None ->
  ms_partitionStates (applyPartitionState ms st) !! topic = None.
Proof.
  intros Hst Hnone.
  unfold applyPartitionState, removePartitionInfo, addOrUpdatePartitionInfo.
  case_decide as Hdel; simpl.
  - destruct (ms_partitionStates ms !! topicName st) as [infos|] eqn:Hinfos;
      [|done].
    assert (topicName st <> topic) by congruence.
    case_decide; simpl.
    + by rewrite lookup_delete_ne.
    + by rewrite lookup_insert_ne.
  - rewrite lookup_insert_ne; [done|]. intros Heq. by apply Hdel, Hst.
Qed.

Lemma foldl_applyPartitionState_partitionStates_None ms
    (l : list UpdateMetadataPartitionState) topic :
  Forall (fun st => topicName st = topic -> leader st = LeaderDuringDelete) l ->
  ms_partitionStates ms !! topic = None ->
  ms_partitionStates (foldl applyPartitionState ms l) !! topic = None.
Proof.
  revert ms. induction l as [|st l IH]; intros ms Hl Hnone; [done|].
  apply Forall_cons in Hl as [Hst Hl]. simpl.
  by apply IH, applyPartitionState_partitionStates_None.
Qed.

(** C4, as amended.  Take a partition state [e] of the request that carries
    the delete sentinel and is processed when its topic holds no partition
    but the one of [e].  The published snapshot has no topic identifier for
    that topic; and when no partition state after [e] in the request caches
    a partition of that topic, it has no partition state for the topic
    either: [contains] is false and the topic is not in [getAllTopics]. *)
Theorem C4_delete_last_partition s correlationId req
    (pre post : list UpdateMetadataPartitionState) e infos :
  req_partitionStates req = pre ++ e :: post ->
  leader e = LeaderDuringDelete ->
  ms_partitionStates
    (foldl applyPartitionState
       (mkMergeState (partitionStates s) (mergedTopicIds s req) []) pre)
    !! topicName e = Some infos ->
  delete (partitionIndex e) infos = ∅ ->
  let s' := (updateMetadata s correlationId req).2 in
  topicIds s' !! topicName e = None /\
  (Forall (fun st => topicName st = topicName e ->
                     leader st = LeaderDuringDelete) post ->
   partitionStates s' !! topicName e = None /\
   contains s' (topicName e) = false /\
   (topicName e ∉ getAllTopics s') /\
   forall partitionId, getPartitionInfo s' (topicName e) partitionId = None).
Proof.
  intros Hreq Hdel Hinfos Hlast.
  rewrite updateMetadata_fold, Hreq, foldl_app. simpl.
  set (ms := foldl applyPartitionState _ pre) in *.
  assert (applyPartitionState ms e =
          mkMergeState (delete (topicName e) (ms_partitionStates ms))
            (delete (topicName e) (ms_topicIds ms))
            (ms_deletedPartitions ms ++ [(topicName e, partitionIndex e)]))
    as ->.
  { unfold applyPartitionState. rewrite decide_True by done. simpl.
    by rewrite (removePartitionInfo_last _ _ _ _ infos). }
  split.
  - apply foldl_applyPartitionState_topicIds_None. simpl.
    apply lookup_delete_eq.
  - intros Hpost.
    assert (ms_partitionStates
              (foldl applyPartitionState
                 (mkMergeState (delete (topicName e) (ms_partitionStates ms))
                    (delete (topicName e) (ms_topicIds ms))
                    (ms_deletedPartitions ms ++ [(topicName e, partitionIndex e)]))
                 post) !! topicName e = None) as Hnone.
    { apply foldl_applyPartitionState_partitionStates_None; [done|].
      simpl. apply lookup_delete_eq. }
    unfold contains, getAllTopics, getPartitionInfo. simpl.
    rewrite Hnone. split_and!; try done.
    by apply not_elem_of_dom.
Qed.

(** *** Caching the partition states of a request twice *)

Lemma addOrUpdatePartitionInfo_absorb
    (ps : gmap string (gmap Z UpdateMetadataPartitionState))
    topic partitionId st1 st2 :
  addOrUpdatePartitionInfo (addOrUpdatePartitionInfo ps topic partitionId st1)
    topic partitionId st2 =
  addOrUpdatePartitionInfo ps topic partitionId st2.
Proof.
  unfold addOrUpdatePartitionInfo.
  rewrite lookup_insert_eq. simpl. by rewrite !insert_insert_eq.
Qed.

Lemma addOrUpdatePartitionInfo_comm
    (ps : gmap string (gmap Z UpdateMetadataPartitionState))
    topic1 partitionId1 st1 topic2 partitionId2 st2 :
  (topic1, partitionId1) <> (topic2, partitionId2) ->
  addOrUpdatePartitionInfo (addOrUpdatePartitionInfo ps topic1 partitionId1 st1)
    topic2 partitionId2 st2 =
  addOrUpdatePartitionInfo (addOrUpdatePartitionInfo ps topic2 partitionId2 st2)
    topic1 partitionId1 st1.
Proof.
  intros Hne. unfold addOrUpdatePartitionInfo.
  destruct (decide (topic1 = topic2)) as [->|Htopic].
  - assert (partitionId1 <> partitionId2) by congruence.
    rewrite !lookup_insert_eq. simpl. rewrite !insert_insert_eq.
    f_equal. by apply insert_insert_ne.
  - rewrite !lookup_insert_ne by done. by apply insert_insert_ne.
Qed.

Lemma cacheState_absorb
    (ps : gmap string (gmap Z UpdateMetadataPartitionState)) e e' :
  (topicName e, partitionIndex e) = (topicName e', partitionIndex e') ->
  cacheState (cacheState ps e) e' = cacheState ps e'.
Proof.
  intros [= Ht Hp]. unfold cacheState. rewrite Ht, Hp.
  apply addOrUpdatePartitionInfo_absorb.
Qed.

Lemma cacheState_comm
    (ps : gmap string (gmap Z UpdateMetadataPartitionState)) e e' :
  (topicName e, partitionIndex e) <> (topicName e', partitionIndex e') ->
  cacheState (cacheState ps e) e' = cacheState (cacheState ps e') e.
Proof. intros Hne. unfold cacheState. by apply addOrUpdatePartitionInfo_comm. Qed.

Lemma foldl_cacheState_absorb (l : list UpdateMetadataPartitionState)
    (ps : gmap string (gmap Z UpdateMetadataPartitionState)) e :
  cacheState (foldl cacheState (cacheState ps e) l) e =
  cacheState (foldl cacheState ps l) e.
Proof.
  revert ps. induction l as [|e' l IH]; intros ps; simpl.
  - by apply cacheState_absorb.
  - destruct (decide ((topicName e, partitionIndex e) =
                      (topicName e', partitionIndex e'))) as [Heq|Hne].
    + by rewrite cacheState_absorb.
    + rewrite cacheState_comm by done. apply IH.
Qed.

Lemma foldl_cacheState_idemp (l : list UpdateMetadataPartitionState)
    (ps : gmap string (gmap Z UpdateMetadataPartitionState)) :
  foldl cacheState (foldl cacheState ps l) l = foldl cacheState ps l.
Proof.
  induction l as [|e l IH] using rev_ind; [done|].
  rewrite !foldl_app. simpl.
  by rewrite foldl_cacheState_absorb, IH.
Qed.

Lemma foldl_applyPartitionState_no_delete ms
    (l : list UpdateMetadataPartitionState) :
  Forall (fun st => leader st <> LeaderDuringDelete) l ->
  foldl applyPartitionState ms l =
    mkMergeState (foldl cacheState (ms_partitionStates ms) l)
      (ms_topicIds ms) (ms_deletedPartitions ms).
Proof.
  revert ms. induction l as [|st l IH]; intros ms Hl; simpl.
  - by destruct ms.
  - apply Forall_cons in Hl as [Hst Hl]. rewrite IH by done.
    unfold applyPartitionState, cacheState. by rewrite decide_False.
Qed.

(** C9.  For a request none of whose partition states carries the delete
    sentinel, and every previous snapshot, applying the request a second
    time publishes the snapshot the first application published: the same
    partition states, topic identifiers, controller id, alive brokers and
    alive nodes. *)
Theorem C9_idempotent s correlationId correlationId' req :
  Forall (fun st => leader st <> LeaderDuringDelete) (req_partitionStates req) ->
  (updateMetadata (updateMetadata s correlationId req).2 correlationId' req).2 =
  (updateMetadata s correlationId req).2.
Proof.
  intros Hreq. rewrite !updateMetadata_fold. simpl.
  rewrite !foldl_applyPartitionState_no_delete by done. simpl.
  rewrite foldl_cacheState_idemp. f_equal.
  rewrite !mergedTopicIds_union. simpl.
  by rewrite (assoc_L (∪)), (idemp_L (∪)).
Qed.

(** *** The cluster view *)

Lemma Long_toInt_Int i : Int_range i -> Long_toInt i = i.
Proof.
  unfold Int_range, Long_toInt. intros Hi.
  rewrite Z.mod_small; lia.
Qed.

Lemma clusterNode_clusterNodes s listenerName id :
  clusterNode (clusterNodes s listenerName) id =
    default (mkNode id "" (-1)) (getAliveEndpoint s id listenerName).
Proof.
  unfold clusterNode, clusterNodes, getAliveEndpoint. by rewrite lookup_omap.
Qed.

(** The pairs [getAllPartitions(snapshot)] is built from. *)
Lemma elem_of_partition_pairs s tp st :
  (tp, st) ∈ map_to_list (partitionStates s) ≫=
     (fun '(topic, partitionStates) =>
        (fun '(partition, state) => ((topic, Long_toInt partition), state))
        <$> map_to_list partitionStates) <->
  exists infos partitionId,
    partitionStates s !! tp.1 = Some infos /\
    infos !! partitionId = Some st /\
    tp.2 = Long_toInt partitionId.
Proof.
  rewrite list_elem_of_bind. split.
  - intros ([topic infos] & Hin & Htopic).
    apply elem_of_map_to_list in Htopic.
    apply list_elem_of_fmap in Hin as ([partitionId st'] & [= -> ->] & Hin).
    apply elem_of_map_to_list in Hin.
    by exists infos, partitionId.
  - intros (infos & partitionId & Htopic & Hst & Hid).
    exists (tp.1, infos). split; [|by apply elem_of_map_to_list].
    apply list_elem_of_fmap. exists (partitionId, st).
    split; [|by apply elem_of_map_to_list].
    destruct tp; simpl in *. by rewrite Hid.
Qed.

Lemma getAllPartitions_snapshot_lookup s topic partitionId :
  partitionIds_Int (partitionStates s) ->
  getAllPartitions_snapshot s !! (topic, partitionId) =
    getPartitionInfo s topic partitionId.
Proof.
  intros Hint. unfold getAllPartitions_snapshot, getPartitionInfo.
  apply option_eq. intros st. split.
  - intros (infos & k & Htopic & Hst & Hid)%lookup_toMap_Some_1%elem_of_partition_pairs.
    simpl in *. rewrite Htopic. simpl.
    rewrite Long_toInt_Int in Hid by (eapply Hint; eauto). by subst.
  - intros Hst.
    destruct (partitionStates s !! topic) as [infos|] eqn:Htopic; [|done].
    simpl in Hst. apply lookup_toMap_Some_2.
    + intros st' (infos' & k & Htopic' & Hst' & Hid)%elem_of_partition_pairs.
      simpl in *. rewrite Htopic in Htopic'. injection Htopic' as <-.
      rewrite Long_toInt_Int in Hid by (eapply Hint; eauto). subst k.
      congruence.
    + apply elem_of_partition_pairs. exists infos, partitionId.
      split_and!; [done..|]. simpl.
      symmetry. apply Long_toInt_Int. eapply Hint; eauto.
Qed.

(** C8.  [getClusterMetadata] computes from the one snapshot it is given:
    its nodes are exactly the nodes recorded under the listener name for an
    alive broker; its partitions are exactly the partitions of the snapshot
    whose leader is not the delete sentinel, with the broker ids resolved to
    nodes; its controller is the resolved node of the snapshot's controller
    id, and absent when the snapshot has none.  A broker id resolves to its
    node under the listener name, or to [Node(id, "", -1)]. *)
Theorem C8_cluster_metadata s clusterId listenerName :
  partitionIds_Int (partitionStates s) ->
  let c := getClusterMetadata s clusterId listenerName in
  let node := fun id =>
    default (mkNode id "" (-1)) (getAliveEndpoint s id listenerName) in
  (forall n, n ∈ cluster_nodes c <->
     exists id nodesByListener,
       aliveNodes s !! id = Some nodesByListener /\
       nodesByListener !! listenerName = Some n) /\
  (forall pinfo, pinfo ∈ cluster_partitions c <->
     exists topic partitionId st,
       getPartitionInfo s topic partitionId = Some st /\
       leader st <> LeaderDuringDelete /\
       pinfo = mkPartitionInfo topic partitionId (node (leader st))
                 (node <$> replicas st) (node <$> isr st)
                 (node <$> offlineReplicas st)) /\
  cluster_controller c = node <$> controllerId s.
Proof.
  intros Hint. unfold getClusterMetadata. simpl. split_and!.
  - intros n. rewrite list_elem_of_fmap. split.
    + intros ([id n'] & -> & Hin). apply elem_of_map_to_list in Hin.
      unfold clusterNodes in Hin. rewrite lookup_omap in Hin. simpl.
      destruct (aliveNodes s !! id) as [nodesByListener|] eqn:Hid; [|done].
      by exists id, nodesByListener.
    + intros (id & nodesByListener & Hid & Hn). exists (id, n).
      split; [done|]. apply elem_of_map_to_list.
      unfold clusterNodes. rewrite lookup_omap. by rewrite Hid.
  - intros pinfo. rewrite list_elem_of_fmap. split.
    + intros ([[topic partitionId] st] & -> & Hin).
      apply elem_of_map_to_list, map_lookup_filter_Some in Hin as [Hst Hleader].
      rewrite getAllPartitions_snapshot_lookup in Hst by done.
      exists topic, partitionId, st. split_and!; [done..|]. simpl.
      rewrite !clusterNode_clusterNodes. f_equal;
        apply list_fmap_ext; intros; apply clusterNode_clusterNodes.
    + intros (topic & partitionId & st & Hst & Hleader & ->).
      exists ((topic, partitionId), st). split.
      * simpl. rewrite !clusterNode_clusterNodes. f_equal;
          apply list_fmap_ext; intros; symmetry; apply clusterNode_clusterNodes.
      * apply elem_of_map_to_list, map_lookup_filter_Some.
        by rewrite getAllPartitions_snapshot_lookup.
  - destruct (controllerId s); simpl; [|done].
    by rewrite clusterNode_clusterNodes.
Qed.

(** The partition ids stay in [Int] under [updateMetadata]. *)
Lemma applyPartitionState_partitionIds_Int ms st :
  Int_range (partitionIndex st) ->
  partitionIds_Int (ms_partitionStates ms) ->
  partitionIds_Int (ms_partitionStates (applyPartitionState ms st)).
Proof.
  intros Hst Hint topic infos partitionId.
  unfold applyPartitionState, removePartitionInfo, addOrUpdatePartitionInfo.
  case_decide; simpl.
  - destruct (ms_partitionStates ms !! topicName st) as [infos'|] eqn:Hinfos';
      [case_decide|]; simpl.
    + intros [_ Htopic]%lookup_delete_Some. exact (Hint _ _ _ Htopic).
    + intros [[<- <-]|[_ Htopic]]%lookup_insert_Some.
      * intros [_ Hsome]%lookup_delete_is_Some. exact (Hint _ _ _ Hinfos' Hsome).
      * exact (Hint _ _ _ Htopic).
    + exact (Hint _ _ _).
  - intros [[<- <-]|[_ Htopic]]%lookup_insert_Some.
    + intros [<-|[_ Hsome]]%lookup_insert_is_Some; [done|].
      destruct (ms_partitionStates ms !! topicName st) as [infos'|] eqn:Hinfos';
        simpl in Hsome.
      * exact (Hint _ _ _ Hinfos' Hsome).
      * rewrite lookup_empty in Hsome. by destruct Hsome.
    + exact (Hint _ _ _ Htopic).
Qed.

Lemma foldl_applyPartitionState_partitionIds_Int ms
    (l : list UpdateMetadataPartitionState) :
  Forall (fun st => Int_range (partitionIndex st)) l ->
  partitionIds_Int (ms_partitionStates ms) ->
  partitionIds_Int (ms_partitionStates (foldl applyPartitionState ms l)).
Proof.
  revert ms. induction l as [|st l IH]; intros ms Hl Hint; [done|].
  apply Forall_cons in Hl as [Hst Hl]. simpl.
  apply IH; [done|]. by apply applyPartitionState_partitionIds_Int.
Qed.

Lemma updateMetadata_partitionIds_Int s correlationId req :
  Forall (fun st => Int_range (partitionIndex st)) (req_partitionStates req) ->
  partitionIds_Int (partitionStates s) ->
  partitionIds_Int (partitionStates (updateMetadata s correlationId req).2).
Proof.
  intros Hreq Hint. rewrite updateMetadata_fold. simpl.
  by apply foldl_applyPartitionState_partitionIds_Int.
Qed.

Lemma emptySnapshot_partitionIds_Int :
  partitionIds_Int (partitionStates emptySnapshot).
Proof. intros topic infos partitionId. simpl. by rewrite lookup_empty. Qed.

End Properties.

(** ** The cache on the data above *)

(** C1, the claim as stated fails: U2 has no broker list, and the update
    does not keep the alive nodes and brokers of the previous snapshot; the
    leader of orders-0, broker 1, was reachable before the update and
    resolves to the empty node after it. *)
Lemma C1_counterexample :
  liveBrokers U2 = [] /\
  aliveNodes (updateMetadata snapshot1 2 U2).2 <> aliveNodes snapshot1 /\
  aliveBrokers (updateMetadata snapshot1 2 U2).2 <> aliveBrokers snapshot1 /\
  getAliveEndpoint snapshot1 1 "plain" = Some (mkNode 1 "host1" 9092) /\
  getAliveEndpoint (updateMetadata snapshot1 2 U2).2 1 "plain" = None /\
  getPartitionLeaderEndpoint (updateMetadata snapshot1 2 U2).2 "orders" 0 "plain"
    = Some (mkNode (-1) "" (-1)).
Proof.
  split_and!; try reflexivity.
  - intros Heq. apply (f_equal (fun m => m !! 1%Z)) in Heq.
    vm_compute in Heq. discriminate.
  - intros Heq. apply (f_equal (fun m => m !! 1%Z)) in Heq.
    vm_compute in Heq. discriminate.
Qed.

(** C1 at work: U2, which has no broker list, applied to the snapshot with broker 1. *)
Lemma C1_witness :
  liveBrokers U2 = [] /\
  aliveNodes (updateMetadata snapshot1 2 U2).2 = ∅ /\
  aliveBrokers (updateMetadata snapshot1 2 U2).2 = ∅.
Proof.
  destruct (C1_empty_broker_list (KC := kafka) snapshot1 2 U2
              (fun broker => broker) eq_refl) as (Hbrokers & Hnodes & _).
  split_and!; [reflexivity | exact Hnodes | exact Hbrokers].
Defined.

(** C2, the claim as stated fails: replica 2 of orders-0 has no alive end
    point, and with [errorUnavailableEndpoints] false it stays in the
    replica and ISR lists of the answer. *)
Lemma C2_counterexample :
  hasAliveEndpoint snapshot12 2 "plain" = false /\
  mrp_replicaNodes <$>
    (getTopicMetadata snapshot12 {["orders"]} "plain" false false
       ≫= mrt_partitions) = [[1; 2]%Z] /\
  mrp_isrNodes <$>
    (getTopicMetadata snapshot12 {["orders"]} "plain" false false
       ≫= mrt_partitions) = [[1; 2]%Z].
Proof. split_and!; vm_compute; reflexivity. Qed.

(** C2 at work: the answer for the topic orders with unavailable end points as errors. *)
Lemma C2_witness :
  orders_topic_v0 ∈ getTopicMetadata snapshot12 {["orders"]} "plain" true true /\
  orders_partition_v0 ∈ mrt_partitions orders_topic_v0 /\
  exists infos partitionId st,
    partitionStates snapshot12 !! "orders" = Some infos /\
    infos !! partitionId = Some st /\
    mrp_replicaNodes orders_partition_v0 =
      filter (fun brokerId => hasAliveEndpoint snapshot12 brokerId "plain")
        (replicas st).
Proof.
  assert (orders_topic_v0 ∈
            getTopicMetadata snapshot12 {["orders"]} "plain" true true) as Ht.
  { assert (getTopicMetadata snapshot12 {["orders"]} "plain" true true =
            [orders_topic_v0]) as -> by (vm_compute; reflexivity).
    apply list_elem_of_singleton. reflexivity. }
  assert (orders_partition_v0 ∈ mrt_partitions orders_topic_v0) as Hp.
  { apply list_elem_of_singleton. reflexivity. }
  split; [exact Ht|]. split; [exact Hp|].
  destruct (C2_replica_filtering (KC := kafka) snapshot12 {["orders"]} "plain"
              true true orders_topic_v0 orders_partition_v0 Ht Hp)
    as (infos & partitionId & st & Hinfos & Hst & _ & _ & Htrue).
  exists infos, partitionId, st.
  split; [exact Hinfos|]. split; [exact Hst|].
  exact (proj1 (Htrue eq_refl)).
Defined.

(** C4, the claim as stated fails: "orders" has the one partition 0; the
    request deletes it and then caches partition 1 of "orders", and the
    published snapshot contains the topic (without a topic identifier). *)
Lemma C4_counterexample :
  numPartitions snapshot2 "orders" = Some 1%nat /\
  contains_tp snapshot2 ("orders", 0%Z) = true /\
  (fun st => (topicName st, partitionIndex st, leader st))
    <$> req_partitionStates U3_readd
    = [("orders", 0, @LeaderDuringDelete kafka); ("orders", 1, 1)]%Z /\
  contains (updateMetadata snapshot2 3 U3_readd).2 "orders" = true /\
  getAllTopics (updateMetadata snapshot2 3 U3_readd).2 = {["orders"]} /\
  topicIds (updateMetadata snapshot2 3 U3_readd).2 !! "orders" = None.
Proof. split_and!; vm_compute; reflexivity. Qed.

(** C4 at work: U3 deletes the only partition of the topic orders. *)
Lemma C4_witness :
  topicIds (updateMetadata snapshot2 3 U3).2 !! "orders" = None /\
  contains (updateMetadata snapshot2 3 U3).2 "orders" = false.
Proof.
  destruct (C4_delete_last_partition (KC := kafka) snapshot2 3 U3 [] []
              (mkUpdateMetadataPartitionState "orders" 0 (-2) 0 [] [] [])
              {[0%Z := mkUpdateMetadataPartitionState "orders" 0 1 0 [1%Z] [1%Z] []]}
              eq_refl eq_refl)
    as [Hids Hstates].
  - vm_compute. reflexivity.
  - vm_compute. reflexivity.
  - split; [exact Hids|]. apply Hstates. constructor.
Defined.

(** C5 at work: U1 carries no partition state and is applied to the snapshot with the topic orders. *)
Lemma C5_witness :
  req_partitionStates U1 = [] /\
  partitionStates (updateMetadata snapshot2 4 U1).2 = partitionStates snapshot2 /\
  getAllPartitions (updateMetadata snapshot2 4 U1).2 = getAllPartitions snapshot2.
Proof.
  destruct (C5_no_partition_states (KC := kafka) snapshot2 4 U1 eq_refl)
    as (Hstates & _ & Hpartitions & _).
  split_and!; [reflexivity | exact Hstates | exact Hpartitions].
Defined.

(** C7, the claim as stated fails: the cache is empty, the request carries
    the delete sentinel for orders-0; nothing is deleted from the partition
    states and the update returns orders-0. *)
Lemma C7_counterexample :
  getPartitionInfo snapshot0 "orders" 0 = None /\
  partitionStates (updateMetadata snapshot0 3 U3).2 = partitionStates snapshot0 /\
  (updateMetadata snapshot0 3 U3).1 = [("orders", 0%Z)].
Proof. split_and!; vm_compute; reflexivity. Qed.

(** C8 at work: the cluster view of the snapshot with the topic orders and broker 1. *)
Lemma C8_witness :
  partitionIds_Int (partitionStates snapshot12) /\
  mkPartitionInfo "orders" 0 (mkNode 1 "host1" 9092)
    [mkNode 1 "host1" 9092; mkNode 2 "" (-1)]
    [mkNode 1 "host1" 9092; mkNode 2 "" (-1)] []
  ∈ cluster_partitions (getClusterMetadata snapshot12 "cluster" "plain").
Proof.
  assert (partitionIds_Int (partitionStates snapshot12)) as Hint.
  { apply updateMetadata_partitionIds_Int;
      [|apply emptySnapshot_partitionIds_Int].
    repeat constructor; unfold Int_range; simpl; lia. }
  split; [exact Hint|].
  destruct (C8_cluster_metadata (KC := kafka) snapshot12 "cluster" "plain" Hint)
    as (_ & Hpartitions & _).
  apply Hpartitions.
  exists "orders", 0%Z,
    (mkUpdateMetadataPartitionState "orders" 0 1 0 [1%Z; 2%Z] [1%Z; 2%Z] []).
  split_and!; [reflexivity | discriminate | reflexivity].
Defined.

(** C9 at work: U2 carries no delete sentinel and is applied twice. *)
Lemma C9_witness :
  Forall (fun st => leader st <> @LeaderDuringDelete kafka)
    (req_partitionStates U2) /\
  (updateMetadata (updateMetadata snapshot1 2 U2).2 3 U2).2 =
  (updateMetadata snapshot1 2 U2).2.
Proof.
  assert (Forall (fun st => leader st <> @LeaderDuringDelete kafka)
            (req_partitionStates U2)) as Hreq.
  { repeat constructor. discriminate. }
  split; [exact Hreq|].
  exact (C9_idempotent (KC := kafka) snapshot1 2 3 U2 Hreq).
Defined.

(** C10 at work: U_zero carries the zero identifier for the topic orders, which has an identifier. *)
Lemma C10_witness :
  updateMetadata snapshot2 5 U_zero =
  updateMetadata snapshot2 5 (mkUpdateMetadataRequest 1 0 [] [] []) /\
  topicIds (updateMetadata snapshot2 5 U_zero).2 !! "orders" = Some uuid_A.
Proof.
  pose proof (C10_zero_uuid_ignored (KC := kafka) snapshot2 5 U_zero [] []
                (mkUpdateMetadataTopicState (KC := kafka) "orders" (0, 0)%Z)
                eq_refl eq_refl) as Heq.
  split; [exact Heq|]. vm_compute. reflexivity.
Defined.

(** ** Further properties of the queries and of the update *)

Section MoreProperties.
Context `{KC : KafkaCommon}.
Implicit Types (s : MetadataSnapshot) (req : UpdateMetadataRequest).
Implicit Types (ms : MergeState) (st : UpdateMetadataPartitionState).

(** *** Alive end points *)

(** X1.  [hasAliveEndpoint] answers what [getAliveEndpoint] would find, and
    [maybeFilterAliveReplicas] keeps, in order, exactly the brokers with an
    alive end point when asked to filter: filtering twice changes nothing
    more, and every broker is kept when the flag is off. *)
Theorem hasAliveEndpoint_filter s listenerName (brokers : list Z)
    (filterUnavailableEndpoints : bool) :
  let filtered :=
    maybeFilterAliveReplicas s brokers listenerName filterUnavailableEndpoints in
  (forall brokerId,
     hasAliveEndpoint s brokerId listenerName = true <->
     is_Some (getAliveEndpoint s brokerId listenerName)) /\
  filtered `sublist_of` brokers /\
  (forall brokerId,
     brokerId ∈ filtered <->
     brokerId ∈ brokers /\
     (filterUnavailableEndpoints = true ->
      is_Some (getAliveEndpoint s brokerId listenerName))) /\
  maybeFilterAliveReplicas s filtered listenerName filterUnavailableEndpoints
    = filtered.
Proof.
  assert (forall brokerId,
            hasAliveEndpoint s brokerId listenerName = true <->
            is_Some (getAliveEndpoint s brokerId listenerName)) as Hhas.
  { intros brokerId. unfold hasAliveEndpoint, getAliveEndpoint.
    destruct (aliveNodes s !! brokerId) as [nodes|]; simpl.
    - by rewrite bool_decide_eq_true.
    - split; [done|]. by intros [? [=]]. }
  simpl. split; [done|].
  unfold maybeFilterAliveReplicas.
  destruct filterUnavailableEndpoints; simpl.
  - split_and!.
    + apply sublist_filter.
    + intros brokerId. rewrite list_elem_of_filter, Is_true_true, Hhas.
      split; [intros [? ?]; auto | intros [? Hsome]; auto].
    + apply list_filter_filter_l. done.
  - split_and!; [done| |done].
    intros brokerId. split; [intros ?; split; [done|discriminate] | by intros [? _]].
Qed.

(** *** Topic metadata *)

(** X2.  [getTopicMetadata] answers, in the order of the request, for
    exactly the requested topics the snapshot contains, once each; the other
    requested topics are left out, and they are the topics
    [getNonExistingTopics] returns. *)
Theorem getTopicMetadata_names s (topics : gset string) listenerName
    (errorUnavailableEndpoints errorUnavailableListeners : bool) :
  let names :=
    mrt_name <$> getTopicMetadata s topics listenerName
                   errorUnavailableEndpoints errorUnavailableListeners in
  names = filter (fun topic => contains s topic = true) (elements topics) /\
  NoDup names /\
  (forall topic,
     topic ∈ getNonExistingTopics s topics <-> topic ∈ topics /\ topic ∉ names).
Proof.
  simpl.
  assert (mrt_name <$> getTopicMetadata s topics listenerName
                         errorUnavailableEndpoints errorUnavailableListeners
          = filter (fun topic => contains s topic = true) (elements topics))
    as Hnames.
  { unfold getTopicMetadata, getPartitionMetadata, contains. simpl.
    induction (elements topics) as [|topic l IH]; [done|].
    rewrite bind_cons, fmap_app, IH, filter_cons.
    destruct (partitionStates s !! topic) as [infos|]; simpl.
    - done.
    - done. }
  rewrite Hnames. split_and!; [done| |].
  - apply NoDup_filter, NoDup_elements.
  - intros topic. unfold getNonExistingTopics, contains.
    rewrite elem_of_difference, list_elem_of_filter, elem_of_elements.
    rewrite bool_decide_eq_true, elem_of_dom.
    split; [intros [? Hno]; split; [done|]; by intros [? _]
           | intros [? Hno]; split; [done|]; auto].
Qed.

(** X3.  Every topic [getTopicMetadata] answers for carries no error, the
    topic's identifier (the zero UUID when it has none) and one partition
    per partition state of the topic: as many as [numPartitions] counts. *)
Theorem getTopicMetadata_topic s (topics : gset string) listenerName
    (errorUnavailableEndpoints errorUnavailableListeners : bool) t :
  t ∈ getTopicMetadata s topics listenerName errorUnavailableEndpoints
        errorUnavailableListeners ->
  mrt_name t ∈ topics /\
  mrt_errorCode t = Errors_code NONE /\
  mrt_topicId t = default ZERO_UUID (topicIds s !! mrt_name t) /\
  mrt_isInternal t = Topic_isInternal (mrt_name t) /\
  numPartitions s (mrt_name t) = Some (length (mrt_partitions t)) /\
  forall st,
    (exists partitionId,
       getPartitionInfo s (mrt_name t) partitionId = Some st) ->
    exists p, p ∈ mrt_partitions t /\
      mrp_leaderEpoch p = leaderEpoch st /\
      mrp_offlineReplicas p = offlineReplicas st.
Proof.
  unfold getTopicMetadata, getPartitionMetadata, numPartitions, getPartitionInfo.
  simpl. intros (topic & Ht & Htopic)%list_elem_of_bind.
  apply elem_of_elements in Htopic.
  destruct (partitionStates s !! topic) as [infos|] eqn:Hinfos; simpl in Ht;
    [|by apply elem_of_nil in Ht].
  apply list_elem_of_singleton in Ht as ->. simpl. rewrite Hinfos. simpl.
  split_and!; try done.
  - by rewrite length_fmap, length_map_to_list.
  - intros st [partitionId Hst].
    exists (partitionMetadata s listenerName errorUnavailableEndpoints
              errorUnavailableListeners partitionId st).
    split.
    + apply list_elem_of_fmap. exists (partitionId, st).
      split; [done|]. by apply elem_of_map_to_list.
    + unfold partitionMetadata. by destruct (getAliveEndpoint _ _ _).
Qed.

(** *** The partition states after an update *)

Lemma applyPartitionState_lookup ms st topic partitionId :
  ms_partitionStates (applyPartitionState ms st) !! topic
    ≫= (fun infos => infos !! partitionId) =
  if decide (topicName st = topic /\ partitionIndex st = partitionId)
  then if decide (leader st = LeaderDuringDelete) then None else Some st
  else ms_partitionStates ms !! topic ≫= (fun infos => infos !! partitionId).
Proof.
  unfold applyPartitionState, removePartitionInfo, addOrUpdatePartitionInfo.
  simpl. destruct (decide (leader st = LeaderDuringDelete)) as [Hdel|Hdel].
  - destruct (ms_partitionStates ms !! topicName st) as [infos|] eqn:Hinfos.
    + destruct (decide (delete (partitionIndex st) infos = ∅)) as [Hlast|Hlast];
        simpl.
      * destruct (decide (topicName st = topic)) as [<-|Htopic].
        -- rewrite lookup_delete_eq. simpl. case_decide as Hkey; [done|].
           rewrite Hinfos. simpl.
           rewrite <-(lookup_delete_ne infos (partitionIndex st) partitionId)
             by (intros Heq; by apply Hkey).
           by rewrite Hlast.
        -- rewrite lookup_delete_ne by done.
           rewrite decide_False; [done|]. by intros [? _].
      * destruct (decide (topicName st = topic)) as [<-|Htopic].
        -- rewrite lookup_insert_eq. simpl. rewrite Hinfos. simpl.
           case_decide as Hkey.
           ++ destruct Hkey as [_ <-]. apply lookup_delete_eq.
           ++ apply lookup_delete_ne. intros Heq. by apply Hkey.
        -- rewrite lookup_insert_ne by done.
           rewrite decide_False; [done|]. by intros [? _].
    + simpl. case_decide as Hkey; [|done].
      destruct Hkey as [<- _]. by rewrite Hinfos.
  - simpl. destruct (decide (topicName st = topic)) as [<-|Htopic].
    + rewrite lookup_insert_eq. simpl. case_decide as Hkey.
      * destruct Hkey as [_ <-]. apply lookup_insert_eq.
      * rewrite lookup_insert_ne by (intros Heq; by apply Hkey).
        destruct (ms_partitionStates ms !! topicName st); [done|].
        simpl. apply lookup_empty.
    + rewrite lookup_insert_ne by done.
      rewrite decide_False; [done|]. by intros [? _].
Qed.

Lemma foldl_applyPartitionState_lookup ms
    (l : list UpdateMetadataPartitionState) topic partitionId :
  ms_partitionStates (foldl applyPartitionState ms l) !! topic
    ≫= (fun infos => infos !! partitionId) =
  match last (filter (fun st => topicName st = topic /\
                                partitionIndex st = partitionId) l) with
  | Some st => if decide (leader st = LeaderDuringDelete) then None else Some st
  | None => ms_partitionStates ms !! topic ≫= (fun infos => infos !! partitionId)
  end.
Proof.
  induction l as [|st l IH] using rev_ind; [done|].
  rewrite foldl_app, filter_app. simpl.
  rewrite applyPartitionState_lookup, filter_cons, filter_nil.
  case_decide.
  - by rewrite last_snoc.
  - by rewrite app_nil_r.
Qed.

(** X4.  After an update the cache answers for a partition with the last
    partition state of the request for that (topic, partition): absent when
    that state carries the delete sentinel, that state otherwise; a
    partition the request has no state for is answered as before. *)
Theorem updateMetadata_getPartitionInfo s correlationId req topic partitionId :
  getPartitionInfo (updateMetadata s correlationId req).2 topic partitionId =
  match last (filter (fun st => topicName st = topic /\
                                partitionIndex st = partitionId)
                (req_partitionStates req)) with
  | Some st => if decide (leader st = LeaderDuringDelete) then None else Some st
  | None => getPartitionInfo s topic partitionId
  end.
Proof.
  rewrite updateMetadata_fold. unfold getPartitionInfo. simpl.
  by rewrite foldl_applyPartitionState_lookup.
Qed.

(** *** The topic identifiers after an update *)

Lemma applyPartitionState_topicIds_Some ms st name u :
  ms_topicIds (applyPartitionState ms st) !! name = Some u ->
  ms_topicIds ms !! name = Some u.
Proof.
  unfold applyPartitionState, removePartitionInfo.
  case_decide; [|done].
  destruct (ms_partitionStates ms !! _); [|done].
  case_decide; [|done]. simpl.
  by intros [_ ?]%lookup_delete_Some.
Qed.

Lemma applyPartitionState_topicIds_keep ms st name :
  (topicName st = name -> leader st <> LeaderDuringDelete) ->
  ms_topicIds (applyPartitionState ms st) !! name = ms_topicIds ms !! name.
Proof.
  intros Hst. unfold applyPartitionState, removePartitionInfo.
  case_decide as Hdel; [|done].
  destruct (ms_partitionStates ms !! _); [|done].
  case_decide; [|done]. simpl.
  apply lookup_delete_ne. intros Heq. by apply Hst.
Qed.

Lemma foldl_applyPartitionState_topicIds_Some ms
    (l : list UpdateMetadataPartitionState) name u :
  ms_topicIds (foldl applyPartitionState ms l) !! name = Some u ->
  ms_topicIds ms !! name = Some u.
Proof.
  revert ms. induction l as [|st l IH]; intros ms; [done|]. simpl.
  intros Hu%IH. by apply applyPartitionState_topicIds_Some in Hu.
Qed.

Lemma foldl_applyPartitionState_topicIds_keep ms
    (l : list UpdateMetadataPartitionState) name :
  Forall (fun st => topicName st = name -> leader st <> LeaderDuringDelete) l ->
  ms_topicIds (foldl applyPartitionState ms l) !! name = ms_topicIds ms !! name.
Proof.
  revert ms. induction l as [|st l IH]; intros ms Hl; [done|].
  apply Forall_cons in Hl as [Hst Hl]. simpl.
  rewrite IH by done. by apply applyPartitionState_topicIds_keep.
Qed.

(** X5.  The topic identifier of a name after an update: the identifier of
    the last topic state of the request for that name with a non-zero
    identifier, the previous identifier when the request has none, unless a
    partition state of the request deletes a partition of that topic; and
    every identifier the published snapshot holds is that merged one, so an
    update loses identifiers only. *)
Theorem updateMetadata_topicIds s correlationId req name :
  let s' := (updateMetadata s correlationId req).2 in
  let merged :=
    match last (filter (fun ts => umt_topicName ts = name /\
                                  umt_topicId ts <> ZERO_UUID)
                  (topicStates req)) with
    | Some ts => Some (umt_topicId ts)
    | None => topicIds s !! name
    end in
  (forall u, topicIds s' !! name = Some u -> merged = Some u) /\
  (Forall (fun st => topicName st = name -> leader st <> LeaderDuringDelete)
     (req_partitionStates req) ->
   topicIds s' !! name = merged).
Proof.
  rewrite updateMetadata_fold. simpl. split.
  - intros u Hu%foldl_applyPartitionState_topicIds_Some. simpl in Hu.
    by rewrite <-mergedTopicIds_lookup.
  - intros Hreq. rewrite foldl_applyPartitionState_topicIds_keep by done.
    simpl. apply mergedTopicIds_lookup.
Qed.

(** *** The alive brokers and nodes after an update *)

(** X6.  Whatever the previous snapshot held, the alive brokers and nodes of
    the published snapshot are those of the request's broker list: a broker
    id is alive exactly when the list has a broker with that id, the last
    such broker is the one recorded, in both maps alike, and the end point
    of the id under a listener name is the node made of the id and of the
    host and port of the broker's last end point with that listener. *)
Theorem updateMetadata_alive s correlationId req
    {MetadataBroker : Type} (MetadataBroker_apply : Broker -> MetadataBroker)
    brokerId listenerName :
  let s' := (updateMetadata s correlationId req).2 in
  let broker :=
    last (filter (fun broker => umb_id broker = brokerId) (liveBrokers req)) in
  getAliveBroker MetadataBroker_apply s' brokerId =
    (fun broker => MetadataBroker_apply (liveBroker broker)) <$> broker /\
  getAliveEndpoint s' brokerId listenerName =
    broker ≫= (fun broker =>
      (fun ep => mkNode brokerId (ume_host ep) (ume_port ep)) <$>
        last (filter (fun ep => ume_listener ep = listenerName)
                (umb_endpoints broker))) /\
  (is_Some (aliveBrokers s' !! brokerId) <-> is_Some (aliveNodes s' !! brokerId)) /\
  (is_Some (aliveNodes s' !! brokerId) <->
   exists broker, broker ∈ liveBrokers req /\ umb_id broker = brokerId).
Proof.
  rewrite updateMetadata_fold. simpl.
  unfold getAliveBroker, getAliveEndpoint. simpl.
  destruct (liveBrokerMaps_lookup req brokerId) as [-> ->].
  destruct (last _) as [broker|] eqn:Hlast; simpl.
  - apply last_Some_elem_of, list_elem_of_filter in Hlast as [Hid Hin].
    rewrite brokerNodes_lookup_last, Hid. split_and!; [done..| |].
    + split; eauto.
    + split; eauto.
  - apply last_None in Hlast. split_and!; [done..| |].
    + split; by intros [? [=]].
    + split; [by intros [? [=]]|]. intros (broker & Hin & Hid).
      assert (broker ∈ filter (fun broker => umb_id broker = brokerId)
                         (liveBrokers req)) as Hf
        by by apply list_elem_of_filter.
      rewrite Hlast in Hf. by apply elem_of_nil in Hf.
Qed.

(** *** What holds of every snapshot of a cache *)

Lemma applyPartitionState_noEmptyTopic ms st :
  noEmptyTopic (ms_partitionStates ms) ->
  noEmptyTopic (ms_partitionStates (applyPartitionState ms st)).
Proof.
  intros Hne topic infos.
  unfold applyPartitionState, removePartitionInfo, addOrUpdatePartitionInfo.
  case_decide; simpl.
  - destruct (ms_partitionStates ms !! topicName st) as [infos'|] eqn:Hinfos';
      [case_decide|]; simpl.
    + intros [_ Htopic]%lookup_delete_Some. exact (Hne _ _ Htopic).
    + intros [[_ <-]|[_ Htopic]]%lookup_insert_Some; [done|].
      exact (Hne _ _ Htopic).
    + exact (Hne _ _).
  - intros [[_ <-]|[_ Htopic]]%lookup_insert_Some.
    + apply insert_non_empty.
    + exact (Hne _ _ Htopic).
Qed.

Lemma foldl_applyPartitionState_noEmptyTopic ms
    (l : list UpdateMetadataPartitionState) :
  noEmptyTopic (ms_partitionStates ms) ->
  noEmptyTopic (ms_partitionStates (foldl applyPartitionState ms l)).
Proof.
  revert ms. induction l as [|st l IH]; intros ms Hne; [done|].
  simpl. by apply IH, applyPartitionState_noEmptyTopic.
Qed.

Lemma reachable_partitionIds_Int s :
  reachable s -> partitionIds_Int (partitionStates s).
Proof.
  induction 1 as [|s correlationId req _ IH Hreq].
  - apply emptySnapshot_partitionIds_Int.
  - by apply updateMetadata_partitionIds_Int.
Qed.

Lemma reachable_noEmptyTopic s : reachable s -> noEmptyTopic (partitionStates s).
Proof.
  induction 1 as [|s correlationId req _ IH Hreq].
  - intros topic infos. simpl. by rewrite lookup_empty.
  - rewrite updateMetadata_fold. simpl.
    by apply foldl_applyPartitionState_noEmptyTopic.
Qed.

Lemma reachable_topicIds_nonzero s name :
  reachable s -> topicIds s !! name <> Some ZERO_UUID.
Proof.
  induction 1 as [|s correlationId req _ IH Hreq].
  - simpl. by rewrite lookup_empty.
  - rewrite updateMetadata_fold. simpl.
    intros Hz%foldl_applyPartitionState_topicIds_Some. simpl in Hz.
    rewrite mergedTopicIds_lookup in Hz.
    destruct (last _) as [ts|] eqn:Hlast; [|done].
    apply last_Some_elem_of, list_elem_of_filter in Hlast as [[_ Hnz] _].
    by injection Hz.
Qed.

Lemma reachable_alive s brokerId :
  reachable s ->
  (is_Some (aliveBrokers s !! brokerId) <-> is_Some (aliveNodes s !! brokerId)) /\
  (forall nodes listenerName node,
     aliveNodes s !! brokerId = Some nodes ->
     nodes !! listenerName = Some node -> node_id node = brokerId).
Proof.
  destruct 1 as [|s correlationId req _ _].
  - simpl. rewrite !lookup_empty. split; [|done]. split; by intros [? [=]].
  - rewrite updateMetadata_fold. simpl.
    destruct (liveBrokerMaps_lookup req brokerId) as [-> ->].
    destruct (last _) as [broker|] eqn:Hlast; simpl.
    + apply last_Some_elem_of, list_elem_of_filter in Hlast as [Hid Hin].
      split; [split; eauto|].
      intros nodes listenerName node [= <-].
      rewrite brokerNodes_lookup_last.
      destruct (last _); simpl; [|done]. by intros [= <-].
    + split; [split; by intros [? [=]]|]. done.
Qed.

Lemma elem_of_getAllPartitions s (tp : TopicPartition) :
  partitionIds_Int (partitionStates s) ->
  tp ∈ getAllPartitions s <->
  exists infos, partitionStates s !! tp.1 = Some infos /\ is_Some (infos !! tp.2).
Proof.
  intros Hint. unfold getAllPartitions.
  rewrite elem_of_list_to_set, list_elem_of_bind. split.
  - intros ([topic infos] & Hin & Htopic).
    apply elem_of_map_to_list in Htopic.
    apply list_elem_of_fmap in Hin as (partitionId & -> & Hin).
    apply list_elem_of_fmap in Hin as ([partitionId' st] & -> & Hin).
    apply elem_of_map_to_list in Hin. simpl in *.
    exists infos. split; [done|].
    rewrite Long_toInt_Int by (eapply Hint; eauto). eauto.
  - intros (infos & Htopic & [st Hst]).
    exists (tp.1, infos). split; [|by apply elem_of_map_to_list].
    apply list_elem_of_fmap. exists tp.2. split.
    + rewrite Long_toInt_Int by (eapply Hint; eauto). by destruct tp.
    + apply list_elem_of_fmap. exists (tp.2, st).
      split; [done|]. by apply elem_of_map_to_list.
Qed.

(** X7.  In every snapshot of a cache a topic has at least one partition:
    [numPartitions] is never zero, [contains(topic)] holds exactly when
    [contains(tp)] holds for a partition of the topic, [getAllPartitions]
    is the set of the partitions [contains(tp)] holds for, and
    [getAllTopics] is the set of their topics. *)
Theorem reachable_topics_partitions s topic :
  reachable s ->
  numPartitions s topic <> Some 0 /\
  (contains s topic = true <->
   exists partitionId, contains_tp s (topic, partitionId) = true) /\
  (forall tp : TopicPartition,
     tp ∈ getAllPartitions s <-> contains_tp s tp = true) /\
  (topic ∈ getAllTopics s <->
   exists partitionId, (topic, partitionId) ∈ getAllPartitions s).
Proof.
  intros Hs.
  pose proof (reachable_partitionIds_Int s Hs) as Hint.
  pose proof (reachable_noEmptyTopic s Hs) as Hne.
  assert (forall tp : TopicPartition,
            contains_tp s tp = true <->
            exists infos, partitionStates s !! tp.1 = Some infos /\
                          is_Some (infos !! tp.2)) as Htp.
  { intros tp. unfold contains_tp, getPartitionInfo.
    rewrite bool_decide_eq_true.
    destruct (partitionStates s !! tp.1) as [infos|]; simpl.
    - split; [eauto|]. by intros (? & [= <-] & ?).
    - split; [by intros [? [=]] | by intros (? & [=] & _)]. }
  assert (is_Some (partitionStates s !! topic) <->
          exists partitionId infos,
            partitionStates s !! topic = Some infos /\
            is_Some (infos !! partitionId)) as Htopic.
  { split.
    - intros [infos Hinfos].
      destruct (map_choose infos (Hne _ _ Hinfos)) as (partitionId & st & Hst).
      exists partitionId, infos. eauto.
    - intros (_ & infos & Hinfos & _). eauto. }
  split_and!.
  - unfold numPartitions.
    destruct (partitionStates s !! topic) as [infos|] eqn:Hinfos; [|done].
    simpl. intros [= Hsize]. apply map_size_empty_iff in Hsize.
    by apply (Hne _ _ Hinfos).
  - unfold contains. rewrite bool_decide_eq_true, Htopic.
    by setoid_rewrite Htp.
  - intros tp. by rewrite Htp, elem_of_getAllPartitions.
  - unfold getAllTopics. rewrite elem_of_dom, Htopic.
    by setoid_rewrite elem_of_getAllPartitions.
Qed.

(** X8.  No snapshot of a cache binds a topic to the zero UUID, so the
    identifier [getTopicMetadata] answers with is the zero UUID exactly
    for a topic without an identifier. *)
Theorem reachable_topicId_zero s (topics : gset string) listenerName
    (errorUnavailableEndpoints errorUnavailableListeners : bool) t :
  reachable s ->
  t ∈ getTopicMetadata s topics listenerName errorUnavailableEndpoints
        errorUnavailableListeners ->
  (forall name, topicIds s !! name <> Some ZERO_UUID) /\
  (mrt_topicId t = ZERO_UUID <-> topicIds s !! mrt_name t = None).
Proof.
  intros Hs Ht. split; [intros name; by apply reachable_topicIds_nonzero|].
  unfold getTopicMetadata, getPartitionMetadata in Ht. simpl in Ht.
  apply list_elem_of_bind in Ht as (topic & Ht & _).
  destruct (partitionStates s !! topic); simpl in Ht;
    [|by apply elem_of_nil in Ht].
  apply list_elem_of_singleton in Ht as ->. simpl.
  pose proof (reachable_topicIds_nonzero s topic Hs) as Hnz.
  destruct (topicIds s !! topic) as [u|]; simpl; [|done].
  split; [|done]. intros ->. by destruct Hnz.
Qed.

(** X9.  In every snapshot of a cache, a partition [getTopicMetadata]
    answers for is the partition state under the partition index of the
    answer.  When the leader has an end point under the listener the answer
    names the leader; otherwise it names no leader and its error is
    LISTENER_NOT_FOUND if the leader is alive and missing listeners are
    errors, LEADER_NOT_AVAILABLE if not. *)
Theorem reachable_leader_resolution s (topics : gset string) listenerName
    (errorUnavailableEndpoints errorUnavailableListeners : bool) t p :
  reachable s ->
  t ∈ getTopicMetadata s topics listenerName errorUnavailableEndpoints
        errorUnavailableListeners ->
  p ∈ mrt_partitions t ->
  exists st,
    getPartitionInfo s (mrt_name t) (mrp_partitionIndex p) = Some st /\
    match getAliveEndpoint s (leader st) listenerName with
    | Some _ =>
        mrp_leaderId p = leader st /\
        (mrp_errorCode p = Errors_code NONE \/
         mrp_errorCode p = Errors_code REPLICA_NOT_AVAILABLE)
    | None =>
        mrp_leaderId p = NO_LEADER_ID /\
        mrp_errorCode p =
          Errors_code
            (if decide (is_Some (aliveNodes s !! leader st) /\
                        errorUnavailableListeners = true)
             then LISTENER_NOT_FOUND else LEADER_NOT_AVAILABLE)
    end.
Proof.
  intros Hs Ht Hp.
  destruct (elem_of_getTopicMetadata _ _ _ _ _ _ _ Ht Hp)
    as (infos & partitionId & st & _ & Hinfos & Hst & ->).
  exists st. split.
  - unfold getPartitionInfo. rewrite Hinfos. simpl.
    assert (mrp_partitionIndex
              (partitionMetadata s listenerName errorUnavailableEndpoints
                 errorUnavailableListeners partitionId st)
            = Long_toInt partitionId) as ->
      by (unfold partitionMetadata; by destruct (getAliveEndpoint _ _ _)).
    rewrite Long_toInt_Int; [done|].
    eapply (reachable_partitionIds_Int s Hs); eauto.
  - destruct (reachable_alive s (leader st) Hs) as [Hdom Hid].
    unfold partitionMetadata.
    destruct (getAliveEndpoint s (leader st) listenerName) as [node|] eqn:Hnode;
      simpl.
    + split.
      * unfold getAliveEndpoint in Hnode.
        destruct (aliveNodes s !! leader st) as [nodes|] eqn:Hnodes; [|done].
        simpl in Hnode. by eapply Hid.
      * repeat case_match; auto.
    + split; [done|]. f_equal.
      destruct (bool_decide (is_Some (aliveBrokers s !! leader st))) eqn:Hb;
        simpl.
      * apply bool_decide_eq_true, Hdom in Hb.
        destruct errorUnavailableListeners.
        -- by rewrite decide_True.
        -- rewrite decide_False; [done|]. by intros [_ [=]].
      * apply bool_decide_eq_false in Hb.
        rewrite decide_False; [done|]. intros [Hsome _]. by apply Hb, Hdom.
Qed.

(** *** Deleting what the cache does not hold *)

Lemma removePartitionInfo_uncached
    (ps : gmap string (gmap Z UpdateMetadataPartitionState))
    (tids : gmap string Uuid) topic partitionId :
  noEmptyTopic ps ->
  ps !! topic ≫= (fun infos => infos !! partitionId) = None ->
  (removePartitionInfo ps tids topic partitionId).1 = (ps, tids).
Proof.
  intros Hne Hnone. unfold removePartitionInfo.
  destruct (ps !! topic) as [infos|] eqn:Hinfos; [|done].
  simpl in Hnone. rewrite delete_id by done.
  rewrite decide_False by (by eapply Hne).
  simpl. by rewrite insert_id.
Qed.

(** X10.  When no topic has an empty partition map, a request all of whose
    partition states carry the delete sentinel for partitions the cache
    does not hold changes neither the partition states nor the merged topic
    identifiers, and still returns every one of those partitions. *)
Theorem updateMetadata_delete_uncached s correlationId req :
  noEmptyTopic (partitionStates s) ->
  Forall (fun st => leader st = LeaderDuringDelete /\
                    getPartitionInfo s (topicName st) (partitionIndex st) = None)
    (req_partitionStates req) ->
  partitionStates (updateMetadata s correlationId req).2 = partitionStates s /\
  topicIds (updateMetadata s correlationId req).2 = newTopicIds req ∪ topicIds s /\
  (updateMetadata s correlationId req).1 =
    (fun st => (topicName st, partitionIndex st)) <$> req_partitionStates req.
Proof.
  intros Hne Hreq. rewrite updateMetadata_fold. simpl.
  rewrite <-mergedTopicIds_union.
  assert (forall (l : list UpdateMetadataPartitionState) deleted,
            Forall (fun st => leader st = LeaderDuringDelete /\
                      getPartitionInfo s (topicName st) (partitionIndex st) = None)
              l ->
            foldl applyPartitionState
              (mkMergeState (partitionStates s) (mergedTopicIds s req) deleted) l
            = mkMergeState (partitionStates s) (mergedTopicIds s req)
                (deleted ++
                 ((fun st => (topicName st, partitionIndex st)) <$> l)))
    as Hfold.
  { induction l as [|st l IH]; intros deleted Hl; simpl.
    - by rewrite app_nil_r.
    - apply Forall_cons in Hl as [[Hdel Hnone] Hl].
      unfold applyPartitionState at 2. rewrite decide_True by done. simpl.
      pose proof (removePartitionInfo_uncached (partitionStates s)
                    (mergedTopicIds s req) (topicName st) (partitionIndex st)
                    Hne Hnone) as Hrm.
      destruct (removePartitionInfo _ _ _ _) as [[ps tids] b].
      simpl in Hrm. injection Hrm as -> ->.
      rewrite IH by done. by rewrite <-app_assoc. }
  by rewrite Hfold.
Qed.

(** *** Replica end points *)

(** X11.  [getPartitionReplicaEndpoints] binds a broker id exactly when the
    id is a replica of the partition and the node it resolves to (the
    broker's node under the listener name; the empty node for a broker that
    is not alive or has no such listener) is not empty; the binding is that
    node.  It is the empty map for a partition the snapshot does not
    hold, and when the empty node is empty every bound id is an alive
    broker with the listener. *)
Theorem getPartitionReplicaEndpoints_lookup
    (Broker_getNode : Broker -> string -> option Node)
    (Node_isEmpty : Node -> bool) s (tp : TopicPartition) listenerName :
  let endpoints :=
    getPartitionReplicaEndpoints Broker_getNode Node_isEmpty s tp listenerName in
  let resolve := fun replicaId =>
    match aliveBrokers s !! replicaId with
    | Some broker => default Node_noNode (Broker_getNode broker listenerName)
    | None => Node_noNode
    end in
  (forall replicaId node,
     endpoints !! replicaId = Some node <->
     exists st, getPartitionInfo s tp.1 tp.2 = Some st /\
       replicaId ∈ replicas st /\
       node = resolve replicaId /\ Node_isEmpty node = false) /\
  (getPartitionInfo s tp.1 tp.2 = None -> endpoints = ∅) /\
  (Node_isEmpty Node_noNode = true ->
   forall replicaId node,
     endpoints !! replicaId = Some node ->
     exists broker, aliveBrokers s !! replicaId = Some broker /\
       Broker_getNode broker listenerName = Some node).
Proof.
  simpl.
  assert (forall replicaId node,
    getPartitionReplicaEndpoints Broker_getNode Node_isEmpty s tp listenerName
      !! replicaId = Some node <->
    exists st, getPartitionInfo s tp.1 tp.2 = Some st /\
      replicaId ∈ replicas st /\
      node = match aliveBrokers s !! replicaId with
             | Some broker =>
                 default Node_noNode (Broker_getNode broker listenerName)
             | None => Node_noNode
             end /\
      Node_isEmpty node = false) as Hlookup.
  { intros replicaId node.
    unfold getPartitionReplicaEndpoints, getPartitionInfo. simpl.
    destruct (partitionStates s !! tp.1 ≫= _) as [st|]; simpl.
    - rewrite map_lookup_filter_Some. simpl. split.
      + intros [Hin Hne]. apply lookup_toMap_Some_1 in Hin.
        apply list_elem_of_fmap in Hin as (replicaId' & [= -> ->] & Hin).
        by exists st.
      + intros (st' & [= <-] & Hin & -> & Hne). split; [|done].
        apply lookup_toMap_Some_2.
        * intros node' (replicaId' & [= <- ->] & _)%list_elem_of_fmap. done.
        * apply list_elem_of_fmap. by exists replicaId.
    - rewrite lookup_empty. split; [done|]. by intros (? & [=] & _). }
  split_and!.
  - done.
  - intros Hnone. apply map_empty. intros replicaId.
    apply eq_None_not_Some. intros [node Hnode].
    apply Hlookup in Hnode as (st & Hst & _). by rewrite Hnone in Hst.
  - intros Hempty replicaId node (st & _ & _ & -> & Hne)%Hlookup.
    destruct (aliveBrokers s !! replicaId) as [broker|]; [|congruence].
    exists broker. split; [done|].
    destruct (Broker_getNode broker listenerName); [done|]. simpl in Hne.
    congruence.
Qed.

(** *** The cluster view of a snapshot of a cache *)

(** X12.  In every snapshot of a cache the cluster view lists each
    partition once and each node once, and every node it lists is the alive
    end point, under the listener name, of the node's own id. *)
Theorem getClusterMetadata_NoDup s clusterId listenerName :
  reachable s ->
  let c := getClusterMetadata s clusterId listenerName in
  NoDup ((fun pinfo => (pi_topic pinfo, pi_partition pinfo))
         <$> cluster_partitions c) /\
  NoDup (node_id <$> cluster_nodes c) /\
  (forall node, node ∈ cluster_nodes c ->
     getAliveEndpoint s (node_id node) listenerName = Some node).
Proof.
  intros Hs. unfold getClusterMetadata. simpl.
  assert (forall id node,
            clusterNodes s listenerName !! id = Some node ->
            node_id node = id /\
            getAliveEndpoint s id listenerName = Some node) as Hnodes.
  { intros id node. unfold clusterNodes, getAliveEndpoint.
    rewrite lookup_omap. intros Hnode. split; [|done].
    destruct (aliveNodes s !! id) as [nodes|] eqn:Hid; [|done].
    simpl in Hnode. by eapply (reachable_alive s id Hs). }
  split_and!.
  - rewrite <-list_fmap_compose.
    erewrite list_fmap_ext; [apply NoDup_fst_map_to_list|].
    intros i [[topic partitionId] st] _. done.
  - rewrite <-list_fmap_compose.
    erewrite list_fmap_ext; [apply NoDup_fst_map_to_list|].
    intros i [id node] Hin%list_elem_of_lookup_2%elem_of_map_to_list.
    simpl. by apply Hnodes.
  - intros node ([id node'] & -> & Hin%elem_of_map_to_list)%list_elem_of_fmap.
    simpl. apply Hnodes in Hin as [<- Hin]. done.
Qed.

(** *** Applying a request again *)

Lemma partitionStates_ext
    (ps1 ps2 : gmap string (gmap Z UpdateMetadataPartitionState)) :
  noEmptyTopic ps1 -> noEmptyTopic ps2 ->
  (forall topic partitionId,
     ps1 !! topic ≫= (fun infos => infos !! partitionId) =
     ps2 !! topic ≫= (fun infos => infos !! partitionId)) ->
  ps1 = ps2.
Proof.
  intros Hne1 Hne2 Hlookup. apply map_eq. intros topic.
  destruct (ps1 !! topic) as [infos1|] eqn:H1,
           (ps2 !! topic) as [infos2|] eqn:H2; [| | |done].
  - f_equal. apply map_eq. intros partitionId.
    specialize (Hlookup topic partitionId). by rewrite H1, H2 in Hlookup.
  - destruct (map_choose infos1 (Hne1 _ _ H1)) as (partitionId & st & Hst).
    specialize (Hlookup topic partitionId). rewrite H1, H2 in Hlookup.
    simpl in Hlookup. congruence.
  - destruct (map_choose infos2 (Hne2 _ _ H2)) as (partitionId & st & Hst).
    specialize (Hlookup topic partitionId). rewrite H1, H2 in Hlookup.
    simpl in Hlookup. congruence.
Qed.

(** X13.  When no topic has an empty partition map, applying a request a
    second time, delete sentinels or not, publishes the partition states,
    controller id, alive brokers and alive nodes of the first application
    and returns the same deleted partitions. *)
Theorem updateMetadata_reapply s correlationId correlationId' req :
  noEmptyTopic (partitionStates s) ->
  let s1 := (updateMetadata s correlationId req).2 in
  let s2 := (updateMetadata s1 correlationId' req).2 in
  partitionStates s2 = partitionStates s1 /\
  controllerId s2 = controllerId s1 /\
  aliveBrokers s2 = aliveBrokers s1 /\
  aliveNodes s2 = aliveNodes s1 /\
  (updateMetadata s1 correlationId' req).1 =
    (updateMetadata s correlationId req).1.
Proof.
  intros Hne. simpl.
  rewrite (updateMetadata_fold s). simpl. rewrite updateMetadata_fold. simpl.
  split_and!; [|done..|].
  - apply partitionStates_ext.
    + by do 2 apply foldl_applyPartitionState_noEmptyTopic.
    + by apply foldl_applyPartitionState_noEmptyTopic.
    + intros topic partitionId.
      rewrite !foldl_applyPartitionState_lookup. simpl.
      destruct (last _) eqn:Hlast; [done|].
      rewrite foldl_applyPartitionState_lookup. simpl. by rewrite Hlast.
  - by rewrite !foldl_applyPartitionState_deleted.
Qed.

(** *** Topics the request does not delete *)

Lemma applyPartitionState_other_topic ms st topic :
  topicName st <> topic ->
  ms_partitionStates (applyPartitionState ms st) !! topic =
  ms_partitionStates ms !! topic.
Proof.
  intros Htopic.
  unfold applyPartitionState, removePartitionInfo, addOrUpdatePartitionInfo.
  case_decide; simpl.
  - destruct (ms_partitionStates ms !! topicName st); [case_decide|]; simpl.
    + by apply lookup_delete_ne.
    + by apply lookup_insert_ne.
    + done.
  - by apply lookup_insert_ne.
Qed.

(** X14.  A topic none of the request's partition states names keeps its
    partition map through the update, partition for partition; with it
    [contains], [numPartitions] and [getPartitionInfo] of that topic are
    what they were. *)
Theorem updateMetadata_other_topic s correlationId req topic :
  Forall (fun st => topicName st <> topic) (req_partitionStates req) ->
  let s' := (updateMetadata s correlationId req).2 in
  partitionStates s' !! topic = partitionStates s !! topic /\
  contains s' topic = contains s topic /\
  numPartitions s' topic = numPartitions s topic /\
  (forall partitionId,
     getPartitionInfo s' topic partitionId = getPartitionInfo s topic partitionId).
Proof.
  intros Hreq. rewrite updateMetadata_fold. simpl.
  unfold contains, numPartitions, getPartitionInfo. simpl.
  assert (forall (l : list UpdateMetadataPartitionState) ms,
            Forall (fun st => topicName st <> topic) l ->
            ms_partitionStates (foldl applyPartitionState ms l) !! topic =
            ms_partitionStates ms !! topic) as Hfold.
  { induction l as [|st l IH]; intros ms Hl; [done|].
    apply Forall_cons in Hl as [Hst Hl]. simpl.
    rewrite IH by done. by apply applyPartitionState_other_topic. }
  by rewrite Hfold.
Qed.

Lemma foldl_cacheState_dom (l : list UpdateMetadataPartitionState)
    (ps : gmap string (gmap Z UpdateMetadataPartitionState)) :
  dom (foldl cacheState ps l) = dom ps ∪ list_to_set (topicName <$> l).
Proof.
  revert ps. induction l as [|st l IH]; intros ps; simpl.
  - by rewrite (right_id_L ∅ (∪)).
  - rewrite IH. unfold cacheState, addOrUpdatePartitionInfo.
    rewrite dom_insert_L.
    by rewrite (comm_L (∪) {[topicName st]} (dom ps)), (assoc_L (∪)).
Qed.

(** X15.  A request none of whose partition states carries the delete
    sentinel only adds topics: afterwards [getAllTopics] is the previous
    set with the topics the request names, and no requested topic that
    existed or is named by the request is reported by
    [getNonExistingTopics]. *)
Theorem updateMetadata_no_delete_topics s correlationId req :
  Forall (fun st => leader st <> LeaderDuringDelete) (req_partitionStates req) ->
  let s' := (updateMetadata s correlationId req).2 in
  getAllTopics s' =
    getAllTopics s ∪ list_to_set (topicName <$> req_partitionStates req) /\
  (forall topics : gset string,
     getNonExistingTopics s' topics =
       getNonExistingTopics s topics
       ∖ list_to_set (topicName <$> req_partitionStates req)).
Proof.
  intros Hreq. rewrite updateMetadata_fold. simpl.
  unfold getAllTopics, getNonExistingTopics. simpl.
  rewrite foldl_applyPartitionState_no_delete by done. simpl.
  rewrite foldl_cacheState_dom. split; [done|].
  intros topics. by rewrite difference_difference_l_L.
Qed.

(** X16.  In every snapshot of a cache, a node [getPartitionLeaderEndpoint]
    returns is the empty node or the alive end point of the partition's
    leader under the listener name, and then its id is the leader's id. *)
Theorem reachable_leader_endpoint s topic partitionId listenerName node :
  reachable s ->
  getPartitionLeaderEndpoint s topic partitionId listenerName = Some node ->
  exists st,
    getPartitionInfo s topic partitionId = Some st /\
    ((getAliveEndpoint s (leader st) listenerName = None /\ node = Node_noNode) \/
     (getAliveEndpoint s (leader st) listenerName = Some node /\
      node_id node = leader st)).
Proof.
  intros Hs. unfold getPartitionLeaderEndpoint, getPartitionInfo. simpl.
  destruct (partitionStates s !! topic ≫= _) as [st|]; simpl; [|done].
  intros [= <-]. exists st. split; [done|].
  destruct (reachable_alive s (leader st) Hs) as [_ Hid].
  unfold getAliveEndpoint.
  destruct (aliveNodes s !! leader st) as [nodes|] eqn:Hnodes; simpl;
    [|by left].
  destruct (nodes !! listenerName) as [node|] eqn:Hnode; simpl; [|by left].
  right. split; [done|]. by eapply Hid.
Qed.

End MoreProperties.

(** ** The further properties on the data above *)

Lemma snapshot12_reachable : reachable snapshot12.
Proof.
  apply reachable_update; [apply reachable_empty|].
  repeat constructor; unfold Int_range; simpl; lia.
Qed.

Lemma orders_topic_v0_answer :
  orders_topic_v0 ∈ getTopicMetadata snapshot12 {["orders"]} "plain" true true.
Proof.
  assert (getTopicMetadata snapshot12 {["orders"]} "plain" true true =
          [orders_topic_v0]) as -> by (vm_compute; reflexivity).
  apply list_elem_of_singleton. reflexivity.
Qed.

(** X3 at work: the answer for the topic orders. *)
Lemma getTopicMetadata_topic_witness :
  numPartitions snapshot12 "orders" = Some 1 /\
  mrt_topicId orders_topic_v0 = uuid_A.
Proof.
  destruct (getTopicMetadata_topic (KC := kafka) snapshot12 {["orders"]} "plain"
              true true orders_topic_v0 orders_topic_v0_answer)
    as (_ & _ & Hid & _ & Hnum & _).
  split; [exact Hnum | exact Hid].
Defined.

(** X7 at work: the snapshot with the topic orders. *)
Lemma reachable_topics_partitions_witness :
  numPartitions snapshot12 "orders" <> Some 0 /\
  (("orders", 0%Z) ∈ getAllPartitions snapshot12 <->
   contains_tp snapshot12 ("orders", 0%Z) = true).
Proof.
  destruct (reachable_topics_partitions (KC := kafka) snapshot12 "orders"
              snapshot12_reachable) as (Hnum & _ & Hall & _).
  split; [exact Hnum | exact (Hall ("orders", 0%Z))].
Defined.

(** X8 at work: the topic orders has an identifier. *)
Lemma reachable_topicId_zero_witness :
  mrt_topicId orders_topic_v0 = @ZERO_UUID kafka <->
  topicIds snapshot12 !! "orders" = None.
Proof.
  exact (proj2 (reachable_topicId_zero (KC := kafka) snapshot12 {["orders"]}
                  "plain" true true orders_topic_v0 snapshot12_reachable
                  orders_topic_v0_answer)).
Defined.

(** X9 at work: the leader of orders-0 is broker 1, which has the
    listener. *)
Lemma reachable_leader_resolution_witness :
  exists st,
    getPartitionInfo snapshot12 "orders" 0 = Some st /\
    mrp_leaderId orders_partition_v0 = leader st.
Proof.
  destruct (reachable_leader_resolution (KC := kafka) snapshot12 {["orders"]}
              "plain" true true orders_topic_v0 orders_partition_v0
              snapshot12_reachable orders_topic_v0_answer)
    as (st & Hst & Hleader).
  - apply list_elem_of_singleton. reflexivity.
  - exists st. split; [exact Hst|].
    assert (st = mkUpdateMetadataPartitionState "orders" 0 1 0
                   [1%Z; 2%Z] [1%Z; 2%Z] []) as ->
      by (vm_compute in Hst; congruence).
    reflexivity.
Defined.

(** X10 at work: U3 deletes orders-0, which the snapshot with the topic
    payments does not hold. *)
Lemma updateMetadata_delete_uncached_witness :
  partitionStates (updateMetadata snapshot_payments 3 U3).2 =
    partitionStates snapshot_payments /\
  (updateMetadata snapshot_payments 3 U3).1 = [("orders", 0%Z)].
Proof.
  destruct (updateMetadata_delete_uncached (KC := kafka) snapshot_payments 3 U3)
    as (Hstates & _ & Hdeleted).
  - apply reachable_noEmptyTopic.
    apply reachable_update; [apply reachable_empty|].
    repeat constructor; unfold Int_range; simpl; lia.
  - repeat constructor.
  - split; [exact Hstates | exact Hdeleted].
Defined.

(** X12 at work: the cluster view of the snapshot with the topic orders. *)
Lemma getClusterMetadata_NoDup_witness :
  NoDup (node_id <$> cluster_nodes (getClusterMetadata snapshot12 "cluster" "plain")).
Proof.
  exact (proj1 (proj2 (getClusterMetadata_NoDup (KC := kafka) snapshot12
                         "cluster" "plain" snapshot12_reachable))).
Defined.

(** X13 at work: U3 applied twice to the snapshot with the topic orders. *)
Lemma updateMetadata_reapply_witness :
  partitionStates (updateMetadata (updateMetadata snapshot12 3 U3).2 4 U3).2 =
    partitionStates (updateMetadata snapshot12 3 U3).2 /\
  (updateMetadata (updateMetadata snapshot12 3 U3).2 4 U3).1 =
    (updateMetadata snapshot12 3 U3).1.
Proof.
  destruct (updateMetadata_reapply (KC := kafka) snapshot12 3 4 U3
              (reachable_noEmptyTopic _ snapshot12_reachable))
    as (Hstates & _ & _ & _ & Hdeleted).
  split; [exact Hstates | exact Hdeleted].
Defined.

(** X14 at work: U3 names the topic orders only; the topic payments is
    kept. *)
Lemma updateMetadata_other_topic_witness :
  contains (updateMetadata snapshot_payments 3 U3).2 "payments" = true.
Proof.
  destruct (updateMetadata_other_topic (KC := kafka) snapshot_payments 3 U3
              "payments") as (_ & Hcontains & _).
  - repeat constructor. discriminate.
  - rewrite Hcontains. reflexivity.
Defined.

(** X15 at work: U2 adds the topic orders to the snapshot with broker 1. *)
Lemma updateMetadata_no_delete_topics_witness :
  getAllTopics (updateMetadata snapshot1 2 U2).2 =
    getAllTopics snapshot1 ∪ {["orders"]}.
Proof.
  destruct (updateMetadata_no_delete_topics (KC := kafka) snapshot1 2 U2)
    as [Htopics _].
  - repeat constructor. discriminate.
  - rewrite Htopics. vm_compute. reflexivity.
Defined.

(** X16 at work: the leader of orders-0 at host1:9092. *)
Lemma reachable_leader_endpoint_witness :
  exists st,
    getPartitionInfo snapshot12 "orders" 0 = Some st /\
    ((getAliveEndpoint snapshot12 (leader st) "plain" = None /\
      mkNode 1 "host1" 9092 = @Node_noNode kafka) \/
     (getAliveEndpoint snapshot12 (leader st) "plain"
        = Some (mkNode 1 "host1" 9092) /\
      node_id (mkNode 1 "host1" 9092) = leader st)).
Proof.
  apply (reachable_leader_endpoint (KC := kafka) snapshot12 "orders" 0 "plain"
           (mkNode 1 "host1" 9092) snapshot12_reachable).
  vm_compute. reflexivity.
Defined.
